(** * Ksenia Lares 4.0 sensor platform: state derivation

    A shallow embedding of [custom_components/ksenia_lares/sensor.py]:
    the catalog builder [async_setup_entry], the entity constructor
    [KseniaSensorEntity.__init__] with its five category branches, the
    properties [unique_id], [state], [extra_state_attributes], and the
    refresh [async_update].

    Python data is embedded as follows.
    - A decoded JSON value is a [value]; a [dict] with string keys is a
      [gmap string value] (no claim depends on insertion order).
    - A [str] is a Rocq [string] read as a sequence of code points below
      256; the character classes used by [str.isdigit] and by [float] are
      those of Unicode restricted to that range.
    - A [float] is a binary64 number, Rocq's primitive [float].
    - Exceptions and logging are explicit: a computation returns an
      [outcome] together with the list of [event]s it emitted. *)

From Stdlib Require Import ZArith String Ascii List Floats Bool.
From stdpp Require Import gmap strings list fin_maps pretty.

Set Warnings "-register-all".
Open Scope string_scope.
Open Scope list_scope.
Open Scope Z_scope.

(** ** Python values *)

Inductive value : Type :=
  | VNone
  | VBool (b : bool)
  | VInt (z : Z)
  | VFloat (f : float)
  | VStr (s : string)
  | VList (l : list value)
  | VDict (d : gmap string value).

Abbreviation dict := (gmap string value).

Inductive exn : Type :=
  | KeyError
  | AttributeError
  | TypeError
  | ValueError
  | OverflowError
  | IndexError
  | OtherError (name : string).

Inductive outcome (A : Type) : Type :=
  | Ok (a : A)
  | Raise (e : exn).
Arguments Ok {A} a.
Arguments Raise {A} e.

(** ** Strings *)

Module Str.

Definition ord (c : ascii) : Z := Z.of_N (N_of_ascii c).

Definition between (lo hi : Z) (c : ascii) : bool :=
  (lo <=? ord c) && (ord c <=? hi).

(** ['0'..'9'] *)
Definition is_decimal (c : ascii) : bool := between 48 57 c.

(** Code points below 256 with Numeric_Type Decimal or Digit: the ASCII
    digits and the superscripts U+00B2, U+00B3, U+00B9. *)
Definition char_isdigit (c : ascii) : bool :=
  is_decimal c || (ord c =? 178) || (ord c =? 179) || (ord c =? 185).

Fixpoint all_chars (p : ascii -> bool) (s : string) : bool :=
  match s with
  | EmptyString => true
  | String c s' => p c && all_chars p s'
  end.

(** [str.isdigit()]: every character is a digit and there is at least one. *)
Definition isdigit (s : string) : bool :=
  match s with
  | EmptyString => false
  | _ => all_chars char_isdigit s
  end.

(** [s.replace(old, '', count)] for a one-character [old]; [count = None]
    is the unlimited default. *)
Fixpoint remove (old : ascii) (count : option nat) (s : string) : string :=
  match s with
  | EmptyString => EmptyString
  | String c s' =>
      match count with
      | Some O => s
      | _ =>
          if bool_decide (c = old)
          then remove old (pred <$> count) s'
          else String c (remove old count s')
      end
  end.

Fixpoint count_char (old : ascii) (s : string) : nat :=
  match s with
  | EmptyString => O
  | String c s' => ((if bool_decide (c = old) then 1 else 0) + count_char old s')%nat
  end.

Fixpoint map_chars (f : ascii -> ascii) (s : string) : string :=
  match s with
  | EmptyString => EmptyString
  | String c s' => String (f c) (map_chars f s')
  end.

Definition shift (d : Z) (c : ascii) : ascii :=
  ascii_of_N (Z.to_N (ord c + d)).

(** Case mapping of the ASCII letters. On a string of code points below 128
    [upper], [lower] and [capitalize] are Python's [str.upper], [str.lower]
    and [str.capitalize]; Python also maps letters above 127, some of them
    out of the range of this model, and that part is left out: a statement
    that depends on the case of a category tag assumes an ASCII tag
    ([is_ascii]), as the five tags of the catalog builder are. *)
Definition upper_char (c : ascii) : ascii :=
  if between 97 122 c then shift (-32) c else c.
Definition lower_char (c : ascii) : ascii :=
  if between 65 90 c then shift 32 c else c.

Definition upper (s : string) : string := map_chars upper_char s.
Definition lower (s : string) : string := map_chars lower_char s.

Definition capitalize (s : string) : string :=
  match s with
  | EmptyString => EmptyString
  | String c s' => String (upper_char c) (lower s')
  end.

(** Every code point of the string is below 128. *)
Definition is_ascii (s : string) : bool := all_chars (λ c, ord c <? 128) s.

End Str.

(** ** The [float] builtin *)

Module PyFloat.
Import Str.

Definition prec : Z := 53.
Definition emax : Z := 1024.

(** The binary64 number nearest to [m * 10 ^ e] (ties to even; overflow
    gives an infinity). For a negative [e] the quotient is computed with
    more than 64 bits and the remainder is kept as a sticky bit, which
    leaves the rounding of the exact quotient unchanged. *)
Definition round_decimal (neg : bool) (m e : Z) : spec_float :=
  let sgn (x : Z) := if neg then - x else x in
  if m =? 0 then S754_zero neg
  else if 0 <=? e then binary_normalize prec emax (sgn (m * 10 ^ e)) 0 neg
  else
    let d := 10 ^ (- e) in
    let k := Z.log2 d + 66 in
    let q := (m * 2 ^ k) / d in
    let sticky := if (m * 2 ^ k) mod d =? 0 then 0 else 1 in
    binary_normalize prec emax (sgn (2 * q + sticky)) (- k - 1) neg.

(** Characters at or above 127 are read as a blank when they are Unicode
    white space (U+0085, U+00A0) and are otherwise no part of a number. *)
Definition to_ascii (c : ascii) : ascii :=
  if ord c <? 127 then c
  else if (ord c =? 133) || (ord c =? 160) then " "%char
  else "?"%char.

(** Blanks removed at both ends: tab, LF, VT, FF, CR and space. *)
Definition is_blank (c : ascii) : bool := between 9 13 c || (ord c =? 32).

Fixpoint lstrip (s : string) : string :=
  match s with
  | String c s' => if is_blank c then lstrip s' else s
  | EmptyString => EmptyString
  end.

Fixpoint rstrip (s : string) : string :=
  match s with
  | EmptyString => EmptyString
  | String c s' =>
      match rstrip s' with
      | EmptyString => if is_blank c then EmptyString else String c EmptyString
      | t => String c t
      end
  end.

(** An underscore is allowed only between two decimal digits; [prev] is
    the character before [s]. *)
Fixpoint drop_underscores (prev : ascii) (s : string) : option string :=
  match s with
  | EmptyString => if bool_decide (prev = "_"%char) then None else Some EmptyString
  | String c s' =>
      if bool_decide (c = "_"%char) then
        if is_decimal prev then drop_underscores c s' else None
      else if bool_decide (prev = "_"%char) && negb (is_decimal c) then None
      else String c <$> drop_underscores c s'
  end.

(** The leading decimal digits of [s], accumulated onto [m]; [n] counts them. *)
Fixpoint digits (s : string) (m n : Z) : Z * Z * string :=
  match s with
  | String c s' =>
      if is_decimal c then digits s' (10 * m + (ord c - 48)) (n + 1)
      else (m, n, s)
  | EmptyString => (m, n, s)
  end.

Definition sign (s : string) : bool * string :=
  match s with
  | String "-" s' => (true, s')
  | String "+" s' => (false, s')
  | _ => (false, s)
  end.

(** [e] or [E], an optional sign, and at least one digit, up to the end. *)
Definition exponent (s : string) : option Z :=
  match s with
  | EmptyString => Some 0
  | String c s' =>
      if bool_decide (c = "e"%char) || bool_decide (c = "E"%char) then
        let '(neg, s'') := sign s' in
        match digits s'' 0 0 with
        | (x, n, EmptyString) =>
            if n =? 0 then None else Some (if neg then - x else x)
        | _ => None
        end
      else None
  end.

(** [digits [. digits]] or [. digits], then the optional exponent. *)
Definition number (neg : bool) (s : string) : option spec_float :=
  let '(m1, n1, r1) := digits s 0 0 in
  let '(m2, n2, r2) :=
    match r1 with
    | String "." r => digits r m1 0
    | _ => (m1, 0, r1)
    end in
  if n1 + n2 =? 0 then None
  else x ← exponent r2; Some (round_decimal neg m2 (x - n2)).

Definition special (neg : bool) (s : string) : option spec_float :=
  let t := lower s in
  if bool_decide (t = "inf") || bool_decide (t = "infinity") then Some (S754_infinity neg)
  else if bool_decide (t = "nan") then Some S754_nan
  else None.

(** [float(s)] for a [str]. *)
Definition of_str (s : string) : outcome float :=
  match drop_underscores "000"%char (map_chars to_ascii s) with
  | None => Raise ValueError
  | Some t =>
      let '(neg, body) := sign (rstrip (lstrip t)) in
      match special neg body with
      | Some f => Ok (SF2Prim f)
      | None =>
          match number neg body with
          | Some f => Ok (SF2Prim f)
          | None => Raise ValueError
          end
      end
  end.

(** [float(z)] for an [int]: the nearest float, [OverflowError] when it
    is out of range. *)
Definition of_int (z : Z) : outcome float :=
  match binary_normalize prec emax z 0 false with
  | S754_infinity _ => Raise OverflowError
  | f => Ok (SF2Prim f)
  end.

(** The value of a finite float that is an integer. *)
Definition to_int (f : float) : option Z :=
  match Prim2SF f with
  | S754_zero _ => Some 0
  | S754_finite s m e =>
      let v := if 0 <=? e then Z.pos m * 2 ^ e else Z.pos m / 2 ^ (- e) in
      if (0 <=? e) || (Z.pos m mod 2 ^ (- e) =? 0)
      then Some (if s then - v else v) else None
  | _ => None
  end.

End PyFloat.

(** ** Exceptions and the event trace *)

Inductive fetch_call : Type :=
  | GetDom
  | GetSensor (category : string)
  | GetSystem.

Inductive event : Type :=
  | Fetch (c : fetch_call)
  | LogDebug (fmt : string) (data : list dict)
  | LogError (fmt : string) (e : exn).

#[global] Instance outcome_ret : MRet outcome := λ A a, Ok a.
#[global] Instance outcome_bind : MBind outcome := λ A B f m,
  match m with
  | Ok a => f a
  | Raise e => Raise e
  end.
#[global] Instance outcome_fmap : FMap outcome := λ A B f m,
  match m with
  | Ok a => Ok (f a)
  | Raise e => Raise e
  end.

(** A computation: how it ends, and what it fetched and logged on the way. *)
Definition M (A : Type) : Type := outcome A * list event.

#[global] Instance M_ret : MRet M := λ A a, (Ok a, []).
#[global] Instance M_bind : MBind M := λ A B f m,
  match m with
  | (Ok a, l) => let '(r, l') := f a in (r, l ++ l')
  | (Raise e, l) => (Raise e, l)
  end.

Definition lift {A} (o : outcome A) : M A := (o, []).
Definition emit (ev : event) : M unit := (Ok tt, [ev]).

(** [try: body except Exception as e: handler(e)] *)
Definition try_except {A} (body : M A) (handler : exn → M A) : M A :=
  match body with
  | (Ok a, l) => (Ok a, l)
  | (Raise e, l) => let '(r, l') := handler e in (r, l ++ l')
  end.

(** ** Operations on values *)

Definition as_int (v : value) : option Z :=
  match v with
  | VBool b => Some (if b then 1 else 0)
  | VInt z => Some z
  | _ => None
  end.

(** [bool(v)] *)
Definition truthy (v : value) : bool :=
  match v with
  | VNone => false
  | VBool b => b
  | VInt z => negb (z =? 0)
  | VFloat f => negb (f =? 0)%float
  | VStr s => negb (bool_decide (s = EmptyString))
  | VList l => negb (bool_decide (length l = 0%nat))
  | VDict d => negb (bool_decide (size d = 0%nat))
  end.

(** [a == b]. Numbers compare by value across [bool], [int] and [float];
    containers compare element by element (object identity plays no part). *)
Fixpoint py_eq (a b : value) : bool :=
  match a, b with
  | VNone, VNone => true
  | VStr s, VStr t => bool_decide (s = t)
  | VFloat f, VFloat g => (f =? g)%float
  | VFloat f, (VBool _ | VInt _) =>
      bool_decide (PyFloat.to_int f = as_int b)
  | (VBool _ | VInt _), VFloat g =>
      bool_decide (PyFloat.to_int g = as_int a)
  | (VBool _ | VInt _), (VBool _ | VInt _) =>
      bool_decide (as_int a = as_int b)
  | VList l1, VList l2 =>
      (fix go (l1 l2 : list value) : bool :=
         match l1, l2 with
         | [], [] => true
         | x :: xs, y :: ys => py_eq x y && go xs ys
         | _, _ => false
         end) l1 l2
  | VDict d1, VDict d2 =>
      bool_decide (size d1 = size d2) &&
      map_fold (λ k v acc,
                 acc && match d2 !! k with
                        | Some w => py_eq v w
                        | None => false
                        end) true d1
  | _, _ => false
  end.

(** [d.get(k, dflt)] on a record. *)
Definition get (d : dict) (k : string) (dflt : value) : value :=
  default dflt (d !! k).

(** [d[k]] on a record. *)
Definition getitem (d : dict) (k : string) : outcome value :=
  match d !! k with
  | Some v => Ok v
  | None => Raise KeyError
  end.

(** [v.get(k, dflt)] where [v] need not be a mapping. *)
Definition py_get (v : value) (k : string) (dflt : value) : outcome value :=
  match v with
  | VDict d => Ok (get d k dflt)
  | _ => Raise AttributeError
  end.

(** [v.replace(old, '', count)] where [v] need not be a string. *)
Definition py_remove (v : value) (old : ascii) (count : option nat) : outcome string :=
  match v with
  | VStr s => Ok (Str.remove old count s)
  | _ => Raise AttributeError
  end.

(** [float(v)] *)
Definition py_float (v : value) : outcome float :=
  match v with
  | VStr s => PyFloat.of_str s
  | VFloat f => Ok f
  | VInt z => PyFloat.of_int z
  | VBool b => Ok (if b then 1 else 0)%float
  | VNone | VList _ | VDict _ => Raise TypeError
  end.

Fixpoint chars (s : string) : list value :=
  match s with
  | EmptyString => []
  | String c s' => VStr (String c EmptyString) :: chars s'
  end.

(** [v[-1]] *)
Definition py_last (v : value) : outcome value :=
  match v with
  | VList l => match last l with Some x => Ok x | None => Raise IndexError end
  | VStr s => match last (chars s) with Some x => Ok x | None => Raise IndexError end
  | VDict _ => Raise KeyError
  | VNone | VBool _ | VInt _ | VFloat _ => Raise TypeError
  end.

(** The items a [for] loop over [v] visits. *)
Definition py_iter (v : value) : outcome (list value) :=
  match v with
  | VList l => Ok l
  | VStr s => Ok (chars s)
  | VDict d => Ok (VStr <$> (map_to_list d).*1)
  | VNone | VBool _ | VInt _ | VFloat _ => Raise TypeError
  end.

(** ** The category branches

    The constructor and the refresh run the same five branches; they
    differ only in the text of the messages they log, which [phase]
    selects. Each branch returns the pair that is then stored into
    [_state] and [_attributes]. *)

Inductive phase : Type := Construct | Refresh.

(** [float(temp_data.get(key, "0").replace("+", '')) if temp_data.get(key) else None] *)
Definition parse_temp (temp_data : value) (key : string) : outcome value :=
  present ← py_get temp_data key VNone;
  if truthy present then
    raw ← py_get temp_data key (VStr "0");
    s ← py_remove raw "+" None;
    VFloat <$> PyFloat.of_str s
  else Ok VNone.

Definition reduce_system (sensor_data : dict) : M (value * dict) :=
  let temp_data := get sensor_data "TEMP" (VDict ∅) in
  '(temp_in, temp_out) ←
    try_except
      (temp_in ← lift (parse_temp temp_data "IN");
       temp_out ← lift (parse_temp temp_data "OUT");
       mret (temp_in, temp_out))
      (λ e, emit (LogError "Error converting temperature: %s" e);;
            mret (VNone, VNone));
  mret (get sensor_data "ARM" (VStr "unknown"),
        <["temp_in" := temp_in]> (<["temp_out" := temp_out]> ∅)).

(** [float(p) if p and p.replace('.', '', 1).isdigit() else None] *)
Definition parse_power (p : value) : outcome value :=
  if truthy p then
    s ← py_remove p "." (Some 1%nat);
    if Str.isdigit s then VFloat <$> py_float p else Ok VNone
  else Ok VNone.

Definition power_field (sensor_data : dict) (key msg : string) : M value :=
  try_except (lift (parse_power (get sensor_data key VNone)))
             (λ e, emit (LogError msg e);; mret VNone).

Definition reduce_powerlines (sensor_data : dict) : M (value * dict) :=
  pcons_val ← power_field sensor_data "PCONS" "Error converting PCONS: %s";
  pprod_val ← power_field sensor_data "PPROD" "Error converting PPROD: %s";
  let status := get sensor_data "STATUS" (VStr "unknown") in
  mret (match pcons_val with VNone => status | _ => pcons_val end,
        <["Consumo" := pcons_val]>
          (<["Produzione" := pprod_val]> (<["Status" := status]> ∅))).

(** [float(sensor_data.get("T", "0").replace("+", '')) if sensor_data.get("T") else None] *)
Definition parse_T (sensor_data : dict) : outcome value :=
  if truthy (get sensor_data "T" VNone) then
    s ← py_remove (get sensor_data "T" (VStr "0")) "+" None;
    VFloat <$> PyFloat.of_str s
  else Ok VNone.

(** [float(sensor_data.get("H", "0")) if sensor_data.get("H") else None] *)
Definition parse_H (sensor_data : dict) : outcome value :=
  if truthy (get sensor_data "H" VNone) then
    VFloat <$> py_float (get sensor_data "H" (VStr "0"))
  else Ok VNone.

Definition domus_msg (ph : phase) (what : string) : string :=
  match ph with
  | Construct => "Error converting " +:+ what +:+ " in domus sensor: %s"
  | Refresh => "Error converting " +:+ what +:+ " in domus sensor update: %s"
  end.

Definition reduce_domus (ph : phase) (sensor_data : dict) : M (value * dict) :=
  temperature ←
    try_except (lift (parse_T sensor_data))
               (λ e, emit (LogError (domus_msg ph "temperature") e);; mret VNone);
  humidity ←
    try_except (lift (parse_H sensor_data))
               (λ e, emit (LogError (domus_msg ph "humidity") e);; mret VNone);
  mret (match temperature with
        | VNone => get sensor_data "STA" (VStr "unknown")
        | _ => temperature
        end,
        <["humidity" := humidity]> (<["temperature" := temperature]> sensor_data)).

Definition partitions_msg (ph : phase) : string :=
  match ph with
  | Construct => "Error converting total consumption: %s"
  | Refresh => "Error converting ENC in partitions sensor update: %s"
  end.

(** One turn of the loop over [vals]:
    [try: total_consumption += float(record.get("ENC", 0)) except ...: log] *)
Definition add_enc (ph : phase) (total : float) (record : value) : M float :=
  try_except
    (enc ← lift (py_get record "ENC" (VInt 0));
     x ← lift (py_float enc);
     mret (total + x)%float)
    (λ e, emit (LogError (partitions_msg ph) e);; mret total).

Fixpoint sum_enc (ph : phase) (total : float) (vals : list value) : M float :=
  match vals with
  | [] => mret total
  | record :: rest => t ← add_enc ph total record; sum_enc ph t rest
  end.

Definition total_consumption (ph : phase) (sensor_data : dict) : M float :=
  let stat := get sensor_data "STAT" (VList []) in
  if truthy stat then
    latest_stat ← lift (py_last stat);
    vals ← lift (py_get latest_stat "VAL" (VList []));
    records ← lift (py_iter vals);
    sum_enc ph 0%float records
  else mret 0%float.

Definition reduce_partitions (ph : phase) (sensor_data : dict) : M (value * dict) :=
  total ← total_consumption ph sensor_data;
  mret (if (0 <? total)%float then VFloat total
        else get sensor_data "STA" (VStr "unknown"),
        <["total_consumption" := VFloat total]> sensor_data).

Definition reduce_other (sensor_data : dict) : M (value * dict) :=
  mret (get sensor_data "STA" (VStr "unknown"), sensor_data).

(** The [if sensor_type == ...: ... elif ...: ... else: ...] chain. *)
Definition reduce (ph : phase) (sensor_type : string) (sensor_data : dict)
  : M (value * dict) :=
  if bool_decide (sensor_type = "system") then reduce_system sensor_data
  else if bool_decide (sensor_type = "powerlines") then reduce_powerlines sensor_data
  else if bool_decide (sensor_type = "domus") then reduce_domus ph sensor_data
  else if bool_decide (sensor_type = "partitions") then reduce_partitions ph sensor_data
  else reduce_other sensor_data.

(** ** The entity *)

(** The fields of [KseniaSensorEntity]. The session client is not stored
    here: what it answers is an argument of each operation that awaits it. *)
Record KseniaSensorEntity : Type := {
  _id : value;
  _sensor_type : string;
  _name : value;
  _state : value;
  _attributes : dict
}.

(** What the session client answers to each fetch, for one run of the
    operation that awaits it. *)
Definition WsManager : Type := fetch_call → outcome (list dict).

Definition await (ws_manager : WsManager) (c : fetch_call) : M (list dict) :=
  emit (Fetch c);; lift (ws_manager c).

Section Entity.

(** [repr] of a float, a list or a mapping, as the interpreter prints it. *)
Variable py_repr : value → string.

(** [str(v)], as an f-string field renders it. *)
Definition py_str (v : value) : string :=
  match v with
  | VStr s => s
  | VNone => "None"
  | VBool b => if b then "True" else "False"
  | VInt z => pretty z
  | VFloat _ | VList _ | VDict _ => py_repr v
  end.

Definition __init__ (sensor_data : dict) (sensor_type : string)
  : M KseniaSensorEntity :=
  id ← lift (getitem sensor_data "ID");
  let nm := get sensor_data "NM" VNone in
  let lbl := get sensor_data "LBL" VNone in
  let des := get sensor_data "DES" VNone in
  let name :=
    if truthy nm then nm
    else if truthy lbl then lbl
    else if truthy des then des
    else VStr ("Sensor " +:+ Str.capitalize sensor_type +:+ " " +:+ py_str id) in
  '(state, attributes) ← reduce Construct sensor_type sensor_data;
  mret {| _id := id; _sensor_type := sensor_type; _name := name;
          _state := state; _attributes := attributes |}.

Definition unique_id (self : KseniaSensorEntity) : string :=
  _sensor_type self +:+ "_" +:+ py_str (_id self).

Definition name (self : KseniaSensorEntity) : value := _name self.
Definition state (self : KseniaSensorEntity) : value := _state self.
Definition extra_state_attributes (self : KseniaSensorEntity) : dict :=
  _attributes self.

(** [for sensor in sensors: entities.append(KseniaSensorEntity(...))] *)
Fixpoint append_entities (sensors : list dict) (sensor_type : string)
    (entities : list KseniaSensorEntity) : M (list KseniaSensorEntity) :=
  match sensors with
  | [] => mret entities
  | sensor :: rest =>
      e ← __init__ sensor sensor_type;
      append_entities rest sensor_type (entities ++ [e])
  end.

(** The result is the list handed to [async_add_entities]. *)
Definition async_setup_entry (ws_manager : WsManager)
  : M (list KseniaSensorEntity) :=
  let entities := [] in
  domus ← await ws_manager GetDom;
  emit (LogDebug "Received domus data: %s" domus);;
  entities ← append_entities domus "domus" entities;
  powerlines ← await ws_manager (GetSensor "POWER_LINES");
  emit (LogDebug "Received powerlines data: %s" powerlines);;
  entities ← append_entities powerlines "powerlines" entities;
  partitions ← await ws_manager (GetSensor "PARTITIONS");
  emit (LogDebug "Received partitions data: %s" partitions);;
  entities ← append_entities partitions "partitions" entities;
  zones ← await ws_manager (GetSensor "ZONES");
  emit (LogDebug "Received zones data: %s" zones);;
  entities ← append_entities zones "zones" entities;
  systems ← await ws_manager GetSystem;
  emit (LogDebug "Received systems data: %s" systems);;
  entities ← append_entities systems "system" entities;
  mret entities.

End Entity.

(** ** Refresh *)

(** The fetch each branch of [async_update] awaits. *)
Definition fetch_of (sensor_type : string) : fetch_call :=
  if bool_decide (sensor_type = "system") then GetSystem
  else if bool_decide (sensor_type = "powerlines") then GetSensor "POWER_LINES"
  else if bool_decide (sensor_type = "domus") then GetDom
  else if bool_decide (sensor_type = "partitions") then GetSensor "PARTITIONS"
  else GetSensor (Str.upper sensor_type).

(** [for sensor in sensors: if sensor["ID"] == self._id: <branch>; break].
    The result is the pair to store, or [None] when the loop runs out. *)
Fixpoint scan (self : KseniaSensorEntity) (sensors : list dict)
  : M (option (value * dict)) :=
  match sensors with
  | [] => mret None
  | sensor :: rest =>
      id ← lift (getitem sensor "ID");
      if py_eq id (_id self)
      then sa ← reduce Refresh (_sensor_type self) sensor; mret (Some sa)
      else scan self rest
  end.

(** The two assignments that end a branch. *)
Definition store (self : KseniaSensorEntity) (sa : value * dict)
  : KseniaSensorEntity :=
  {| _id := _id self; _sensor_type := _sensor_type self; _name := _name self;
     _state := sa.1; _attributes := sa.2 |}.

(** One refresh: the entity as it is afterwards, and how the call ended.
    An exception leaves the entity as it was, since both assignments come
    after everything that can raise. *)
Definition async_update (ws_manager : WsManager) (self : KseniaSensorEntity)
  : KseniaSensorEntity * M unit :=
  let run :=
    sensors ← await ws_manager (fetch_of (_sensor_type self));
    scan self sensors in
  match run with
  | (Ok (Some sa), log) => (store self sa, (Ok tt, log))
  | (Ok None, log) => (self, (Ok tt, log))
  | (Raise e, log) => (self, (Raise e, log))
  end.

(** The entity after a run of refreshes, one client answer per refresh. *)
Definition refreshes (answers : list WsManager) (self : KseniaSensorEntity)
  : KseniaSensorEntity :=
  foldl (λ e ws_manager, (async_update ws_manager e).1) self answers.

(** ** Vocabulary of the statements *)

(** The computation ends normally. *)
Definition completes {A} (m : M A) : Prop := ∃ a log, m = (Ok a, log).

(** The events a computation emitted. *)
Definition events {A} (m : M A) : list event := m.2.

(** The state and one attribute of a finished reduction. *)
Definition state_of (m : M (value * dict)) : option value :=
  match m with
  | (Ok (st, _), _) => Some st
  | (Raise _, _) => None
  end.

Definition attribute (m : M (value * dict)) (k : string) : option value :=
  match m with
  | (Ok (_, attrs), _) => attrs !! k
  | (Raise _, _) => None
  end.

Definition nullable_float (v : value) : Prop :=
  v = VNone ∨ ∃ f, v = VFloat f.

(** What a [for] loop accepts. *)
Definition iterable (v : value) : bool :=
  match v with
  | VList _ | VStr _ | VDict _ => true
  | VNone | VBool _ | VInt _ | VFloat _ => false
  end.

(** [STAT] is absent or falsy, or it is a list whose last element is a
    mapping whose [VAL] is absent or can be iterated. *)
Definition stat_well_formed (sensor_data : dict) : bool :=
  let stat := get sensor_data "STAT" (VList []) in
  negb (truthy stat) ||
  match stat with
  | VList l =>
      match last l with
      | Some (VDict latest_stat) => iterable (get latest_stat "VAL" (VList []))
      | _ => false
      end
  | _ => false
  end.

(** A partitions record whose newest [STAT] element carries a null [VAL]:
    [{"ID": "1", "STA": "D", "STAT": [{"VAL": null}]}]. *)
Definition null_val_record : dict :=
  <["ID" := VStr "1"]>
    (<["STA" := VStr "D"]>
       (<["STAT" := VList [VDict (<["VAL" := VNone]> ∅)]]> ∅)).

(** The five blocks of [async_setup_entry] in their order: the fetch, the
    text of the debug message, and the category tag given to the entities. *)
Definition setup_stages : list (fetch_call * string * string) :=
  [ (GetDom, "Received domus data: %s", "domus");
    (GetSensor "POWER_LINES", "Received powerlines data: %s", "powerlines");
    (GetSensor "PARTITIONS", "Received partitions data: %s", "partitions");
    (GetSensor "ZONES", "Received zones data: %s", "zones");
    (GetSystem, "Received systems data: %s", "system") ].

Definition setup_fetches : list fetch_call := setup_stages.*1.*1.

Fixpoint run_stages (py_repr : value → string) (ws_manager : WsManager)
    (stages : list (fetch_call * string * string))
    (entities : list KseniaSensorEntity) : M (list KseniaSensorEntity) :=
  match stages with
  | [] => mret entities
  | (c, fmt, sensor_type) :: rest =>
      sensors ← await ws_manager c;
      emit (LogDebug fmt sensors);;
      entities ← append_entities py_repr sensors sensor_type entities;
      run_stages py_repr ws_manager rest entities
  end.

(** The computation fetches nothing. *)
Definition fetch_free {A} (m : M A) : Prop := ∀ c, Fetch c ∉ events m.

(** A record every category accepts: [{"ID": "1", "STA": "ok"}]. *)
Definition plain_record : dict :=
  <["ID" := VStr "1"]> (<["STA" := VStr "ok"]> ∅).

(** A session client whose domus fetch fails while every other fetch
    answers with one record. *)
Definition dom_down : WsManager := λ c,
  match c with
  | GetDom => Raise (OtherError "ConnectionError")
  | _ => Ok [plain_record]
  end.

(** A session client that answers every fetch with one record, except
    the zones fetch, which fails. *)
Definition zones_down : WsManager := λ c,
  match c with
  | GetSensor "ZONES" => Raise (OtherError "TimeoutError")
  | _ => Ok [plain_record]
  end.

Definition no_repr : value → string := λ _, EmptyString.

(** The reading of the temperature fields that strips one leading [+]. *)
Definition strip_leading_plus (s : string) : string :=
  match s with
  | String "+" s' => s'
  | _ => s
  end.

(** A system record with a [+] inside [TEMP.IN]:
    [{"ID": "1", "ARM": "ARMED", "TEMP": {"IN": "2+1.0", "OUT": "5.5"}}]. *)
Definition inner_plus_record : dict :=
  <["ID" := VStr "1"]>
    (<["ARM" := VStr "ARMED"]>
       (<["TEMP" := VDict (<["IN" := VStr "2+1.0"]> (<["OUT" := VStr "5.5"]> ∅))]> ∅)).

(** The system record of the specification's example:
    [{"ID": "1", "ARM": "ARMED", "TEMP": {"IN": "+21.0", "OUT": "5.5"}}]. *)
Definition armed_record : dict :=
  <["ID" := VStr "1"]>
    (<["ARM" := VStr "ARMED"]>
       (<["TEMP" := VDict (<["IN" := VStr "+21.0"]> (<["OUT" := VStr "5.5"]> ∅))]> ∅)).

(** The entries the partitions loop visits: the items of [VAL] in the last
    element of [STAT], none when [STAT] or [VAL] is missing or empty. *)
Definition latest_vals (sensor_data : dict) : list value :=
  match get sensor_data "STAT" (VList []) with
  | VList l =>
      match last l with
      | Some (VDict latest_stat) =>
          match py_iter (get latest_stat "VAL" (VList [])) with
          | Ok vals => vals
          | Raise _ => []
          end
      | _ => []
      end
  | _ => []
  end.

(** The [ENC] of one entry as a float, when it converts; a missing [ENC]
    counts as the integer 0. *)
Definition parsed_enc (record : value) : option float :=
  match py_get record "ENC" (VInt 0) ≫= py_float with
  | Ok x => Some x
  | Raise _ => None
  end.

(** Floating-point sum from left to right, starting at 0.0. *)
Definition float_sum (xs : list float) : float :=
  foldl PrimFloat.add 0%float xs.

Definition enc_sum (sensor_data : dict) : float :=
  float_sum (omap parsed_enc (latest_vals sensor_data)).

(** The partitions record of the specification's example:
    [{"ID": "1", "STA": "D",
      "STAT": [{}, {"VAL": [{"ENC": "1.5"}, {"ENC": "2.5"}]}]}]. *)
Definition metered_record : dict :=
  <["ID" := VStr "1"]>
    (<["STA" := VStr "D"]>
       (<["STAT" :=
            VList [VDict ∅;
                   VDict (<["VAL" := VList [VDict (<["ENC" := VStr "1.5"]> ∅);
                                            VDict (<["ENC" := VStr "2.5"]> ∅)]]> ∅)]]> ∅)).

(** The acceptance check of the powerlines branch on a text:
    [p and p.replace('.', '', 1).isdigit()]. *)
Definition power_accepts (s : string) : bool :=
  negb (bool_decide (s = EmptyString)) && Str.isdigit (Str.remove "." (Some 1%nat) s).

(** The numeric value the powerlines branch keeps for a field: the float,
    or null when the check rejects it or the conversion fails. *)
Definition power_value (p : value) : value :=
  match parse_power p with
  | Ok v => v
  | Raise _ => VNone
  end.

(** [{"ID": "1", "PCONS": "-5", "STATUS": "on"}] *)
Definition minus_five_record : dict :=
  <["ID" := VStr "1"]> (<["PCONS" := VStr "-5"]> (<["STATUS" := VStr "on"]> ∅)).

(** [{"ID": "1", "PCONS": "12.5", "PPROD": "3", "STATUS": "on"}] *)
Definition metering_line_record : dict :=
  <["ID" := VStr "1"]>
    (<["PCONS" := VStr "12.5"]>
       (<["PPROD" := VStr "3"]> (<["STATUS" := VStr "on"]> ∅))).

(** A zones entity with identifier ["7"], as it stands before a refresh. *)
Definition zone_seven : KseniaSensorEntity :=
  {| _id := VStr "7"; _sensor_type := "zones"; _name := VStr "Garage";
     _state := VStr "R"; _attributes := <["ID" := VStr "7"]> (<["STA" := VStr "R"]> ∅) |}.

(** A session client that answers every fetch with the one record
    [{"ID": "1", "STA": "ok"}]. *)
Definition one_record : WsManager := λ _, Ok [plain_record].

Definition zone_record (id sta : string) : dict :=
  <["ID" := VStr id]> (<["STA" := VStr sta]> ∅).

(** A session client whose snapshots hold the identifier ["7"] twice, after
    a record with another identifier. *)
Definition twice_seven : WsManager := λ _,
  Ok ([zone_record "3" "T"] ++ zone_record "7" "A" :: [zone_record "7" "B"]).

(** The numeric fields that are read one at a time. *)
Inductive numeric_field : Type := TEMP_IN | TEMP_OUT | PCONS | PPROD | T | H.

(** The category whose branch reads the field, and the attribute that
    receives its value. *)
Definition field_category (f : numeric_field) : string :=
  match f with
  | TEMP_IN | TEMP_OUT => "system"
  | PCONS | PPROD => "powerlines"
  | T | H => "domus"
  end.

Definition field_attribute (f : numeric_field) : string :=
  match f with
  | TEMP_IN => "temp_in"
  | TEMP_OUT => "temp_out"
  | PCONS => "Consumo"
  | PPROD => "Produzione"
  | T => "temperature"
  | H => "humidity"
  end.

Definition temp_lookup (sensor_data : dict) (key : string) : option value :=
  match sensor_data !! "TEMP" with
  | Some (VDict temp_data) => temp_data !! key
  | _ => None
  end.

Definition temp_delete (sensor_data : dict) (key : string) : dict :=
  match sensor_data !! "TEMP" with
  | Some (VDict temp_data) => <["TEMP" := VDict (delete key temp_data)]> sensor_data
  | _ => sensor_data
  end.

(** The raw field in a record, and the record without it. *)
Definition field_lookup (f : numeric_field) (sensor_data : dict) : option value :=
  match f with
  | TEMP_IN => temp_lookup sensor_data "IN"
  | TEMP_OUT => temp_lookup sensor_data "OUT"
  | PCONS => sensor_data !! "PCONS"
  | PPROD => sensor_data !! "PPROD"
  | T => sensor_data !! "T"
  | H => sensor_data !! "H"
  end.

Definition field_delete (f : numeric_field) (sensor_data : dict) : dict :=
  match f with
  | TEMP_IN => temp_delete sensor_data "IN"
  | TEMP_OUT => temp_delete sensor_data "OUT"
  | PCONS => delete "PCONS" sensor_data
  | PPROD => delete "PPROD" sensor_data
  | T => delete "T" sensor_data
  | H => delete "H" sensor_data
  end.

(** A domus record with an empty temperature:
    [{"ID": "1", "T": '', "H": "45", "STA": "ok"}]. *)
Definition empty_T_record : dict :=
  <["ID" := VStr "1"]>
    (<["T" := VStr EmptyString]> (<["H" := VStr "45"]> (<["STA" := VStr "ok"]> ∅))).

(** The entity the constructor builds from [{"ID": "1", "STA": "ok"}] in
    the zones category. *)
Definition zone_one : KseniaSensorEntity :=
  {| _id := VStr "1"; _sensor_type := "zones"; _name := VStr "Sensor Zones 1";
     _state := VStr "ok"; _attributes := plain_record |}.

(** ** Vocabulary of the further statements *)

(** The value a guarded conversion leaves: its result, or null when it raised. *)
Definition value_or_null (o : outcome value) : value :=
  match o with
  | Ok v => v
  | Raise _ => VNone
  end.

Definition is_log_error (ev : event) : bool :=
  match ev with
  | LogError _ _ => true
  | Fetch _ | LogDebug _ _ => false
  end.

(** Every event of the computation is an error message. *)
Definition only_errors {A} (m : M A) : Prop :=
  Forall (λ ev, is_log_error ev = true) (events m).

(** The fetches among the events, in their order. *)
Definition fetched (log : list event) : list fetch_call :=
  omap (λ ev, match ev with Fetch c => Some c | _ => None end) log.

(** The constructor can finish on the record: it has an [ID] and, in the
    partitions category, a well-formed [STAT]. *)
Definition init_ready (sensor_type : string) (sensor_data : dict) : bool :=
  match sensor_data !! "ID" with
  | Some _ =>
      negb (bool_decide (sensor_type = "partitions")) || stat_well_formed sensor_data
  | None => false
  end.

(** The identity of an entity and the identity a record has in a category. *)
Definition entity_key (e : KseniaSensorEntity) : string * value :=
  (_sensor_type e, _id e).

Definition record_key (sensor_type : string) (sensor_data : dict) : string * value :=
  (sensor_type, get sensor_data "ID" VNone).

(** One block of the setup can finish: its fetch answers and the constructor
    can finish on every record of the answer. *)
Definition stage_ready (ws_manager : WsManager)
    (stage : fetch_call * string * string) : Prop :=
  ∃ sensors, ws_manager stage.1.1 = Ok sensors ∧
             Forall (λ d, init_ready stage.2 d = true) sensors.

(** The identities a block of the setup contributes. *)
Definition stage_keys (ws_manager : WsManager)
    (stage : fetch_call * string * string) : list (string * value) :=
  match ws_manager stage.1.1 with
  | Ok sensors => record_key stage.2 <$> sensors
  | Raise _ => []
  end.

(** A session client whose every fetch fails. *)
Definition all_down : WsManager := λ _, Raise (OtherError "ConnectionError").

(** A session client whose snapshots hold a record without [ID] before the
    record of identifier ["7"]. *)
Definition nameless_first : WsManager := λ _,
  Ok ([zone_record "3" "T"] ++ (<["STA" := VStr "X"]> ∅) :: [zone_record "7" "A"]).

(** The attributes of the entity hold, under ["ID"], a value equal to the
    entity's identifier. *)
Definition carries_id (e : KseniaSensorEntity) : Prop :=
  ∃ i, _attributes e !! "ID" = Some i ∧ py_eq i (_id e) = true.

(** A powerlines entity and a domus entity as the constructor builds them
    from [{"ID": "1", "STA": "ok"}]. *)
Definition line_one : KseniaSensorEntity :=
  {| _id := VStr "1"; _sensor_type := "powerlines"; _name := VStr "Sensor Powerlines 1";
     _state := VStr "unknown";
     _attributes := <["Consumo" := VNone]>
                      (<["Produzione" := VNone]> (<["Status" := VStr "unknown"]> ∅)) |}.

Definition domus_one : KseniaSensorEntity :=
  {| _id := VStr "1"; _sensor_type := "domus"; _name := VStr "Sensor Domus 1";
     _state := VStr "ok";
     _attributes := <["humidity" := VNone]> (<["temperature" := VNone]> plain_record) |}.

(** The catalog built against a client that answers every fetch with the
    one record [{"ID": "1", "STA": "ok"}], and what the setup emitted. *)
Definition five_entities : list KseniaSensorEntity :=
  match (async_setup_entry no_repr one_record).1 with
  | Ok entities => entities
  | Raise _ => []
  end.

Definition five_events : list event := (async_setup_entry no_repr one_record).2.

(** A partitions record whose newest [VAL] holds a good entry, an entry
    whose [ENC] is no number, and an entry that is no mapping:
    [{"ID": "1", "STAT": [{"VAL": [{"ENC": "1.5"}, {"ENC": "abc"}, 7]}]}]. *)
Definition mixed_enc_record : dict :=
  <["ID" := VStr "1"]>
    (<["STAT" :=
         VList [VDict (<["VAL" := VList [VDict (<["ENC" := VStr "1.5"]> ∅);
                                         VDict (<["ENC" := VStr "abc"]> ∅);
                                         VInt 7]]> ∅)]]> ∅).

(** A powerlines record whose [PCONS] is a JSON number:
    [{"ID": "1", "PCONS": 12.5, "STATUS": "on"}]. *)
Definition numeric_pcons_record : dict :=
  <["ID" := VStr "1"]> (<["PCONS" := VFloat 12.5]> (<["STATUS" := VStr "on"]> ∅)).

(** A system record whose [TEMP] is null: [{"ID": "1", "TEMP": null}]. *)
Definition null_temp_record : dict :=
  <["ID" := VStr "1"]> (<["TEMP" := VNone]> ∅).

(** An ASCII digit or the decimal point. *)
Definition ascii_numeric (c : ascii) : bool :=
  Str.is_decimal c || bool_decide (c = "."%char).

(** The domus record of the specification's example, with a temperature
    that is a binary fraction:
    [{"ID": "1", "T": "+19.5", "H": "45", "STA": "ok"}]. *)
Definition warm_record : dict :=
  <["ID" := VStr "1"]>
    (<["T" := VStr "+19.5"]> (<["H" := VStr "45"]> (<["STA" := VStr "ok"]> ∅))).

(** The acceptance check as the claim words it: at most one [.] may be
    taken out, and only an internal one, that is one with a character before
    it and a character after it; what is left must be digits. [drop_inner_dot]
    works on the text after its first character. *)
Fixpoint drop_inner_dot (s : string) : string :=
  match s with
  | EmptyString => EmptyString
  | String c s' =>
      match s' with
      | EmptyString => s
      | String _ _ =>
          if bool_decide (c = "."%char) then s' else String c (drop_inner_dot s')
      end
  end.

Definition claimed_accepts (s : string) : bool :=
  match s with
  | EmptyString => false
  | String c s' => Str.all_chars Str.char_isdigit (String c (drop_inner_dot s'))
  end.

(** A powerlines record whose [PCONS] begins with its decimal point:
    [{"ID": "1", "PCONS": ".5", "STATUS": "on"}]. *)
Definition edge_dot_record : dict :=
  <["ID" := VStr "1"]> (<["PCONS" := VStr ".5"]> (<["STATUS" := VStr "on"]> ∅)).

(** The one-character text U+00B2, superscript two. *)
Definition superscript_two : string :=
  String (ascii_of_N 178) EmptyString.

(** A partitions entity with identifier ["7"], as it stands before a refresh. *)
Definition partition_seven : KseniaSensorEntity :=
  {| _id := VStr "7"; _sensor_type := "partitions"; _name := VStr "Perimeter";
     _state := VStr "D";
     _attributes := <["ID" := VStr "7"]>
                      (<["STA" := VStr "D"]> (<["total_consumption" := VFloat 0]> ∅)) |}.

(** A session client whose snapshots hold the identifier ["7"] twice: first
    in a record whose newest [STAT] element has a null [VAL], then in a sound
    record:
    [[{"ID": "7", "STAT": [{"VAL": null}]}, {"ID": "7", "STA": "A"}]]. *)
Definition broken_then_sound : WsManager := λ _,
  Ok [ <["ID" := VStr "7"]> (<["STAT" := VList [VDict (<["VAL" := VNone]> ∅)]]> ∅);
       zone_record "7" "A" ].

(** ** The monad *)

Ltac mstep :=
  cbn [mbind mret M_bind M_ret outcome_bind outcome_ret outcome_fmap fmap
       lift emit try_except fst snd app].

Lemma completes_ret {A} (a : A) : completes (mret a : M A).
Proof. by exists a, []. Qed.

Lemma completes_bind {A B} (m : M A) (f : A → M B) :
  completes m → (∀ a, completes (f a)) → completes (m ≫= f).
Proof.
  intros (a & l & ->) Hf. destruct (Hf a) as (b & l' & Hb).
  exists b, (l ++ l'). mstep. by rewrite Hb.
Qed.

Lemma completes_bind_inv {A B} (m : M A) (f : A → M B) :
  completes (m ≫= f) → completes m.
Proof.
  destruct m as [[a|e] l]; intros (b & l' & H).
  - by exists a, l.
  - discriminate H.
Qed.

Lemma completes_try {A} (body : M A) (h : exn → M A) :
  (∀ e, completes (h e)) → completes (try_except body h).
Proof.
  intros Hh. destruct body as [[a|e] l]; mstep.
  - by exists a, l.
  - destruct (Hh e) as (b & l' & ->). by exists b, (l ++ l').
Qed.

Lemma completes_handler {A} (msg : string) (a : A) (e : exn) :
  completes (emit (LogError msg e);; mret a : M A).
Proof. by eexists _, _. Qed.

Lemma not_completes_raise {A} (e : exn) (l : list event) :
  ¬ completes ((Raise e, l) : M A).
Proof. intros (a & l' & H). discriminate H. Qed.

(** ** Conversions to float, on the texts of the examples *)

Example of_str_plain : PyFloat.of_str "21.0" = Ok 21%float.
Proof. reflexivity. Qed.

Example of_str_signed : PyFloat.of_str "+21.0" = Ok 21%float.
Proof. reflexivity. Qed.

Example of_str_fraction : PyFloat.of_str "12.5" = Ok 12.5%float.
Proof. reflexivity. Qed.

Example of_str_exponent : PyFloat.of_str " 1_2.5e1 " = Ok 125%float.
Proof. reflexivity. Qed.

Example of_str_minus : PyFloat.of_str "-5" = Ok (-5)%float.
Proof. reflexivity. Qed.

Example of_str_inner_plus : PyFloat.of_str "2+1.0" = Raise ValueError.
Proof. reflexivity. Qed.

Example of_str_empty : PyFloat.of_str EmptyString = Raise ValueError.
Proof. reflexivity. Qed.

Example py_float_int : py_float (VInt 0) = Ok 0%float.
Proof. reflexivity. Qed.

Example py_float_null : py_float VNone = Raise TypeError.
Proof. reflexivity. Qed.

(** ** Completion of the category branches *)

Lemma reduce_system_completes d : completes (reduce_system d).
Proof.
  unfold reduce_system. apply completes_bind.
  - apply completes_try. intros e. apply completes_handler.
  - intros [a b]. apply completes_ret.
Qed.

Lemma power_field_completes d key msg : completes (power_field d key msg).
Proof. apply completes_try. intros e. apply completes_handler. Qed.

Lemma reduce_powerlines_completes d : completes (reduce_powerlines d).
Proof.
  unfold reduce_powerlines.
  apply completes_bind; [apply power_field_completes | intros pc].
  apply completes_bind; [apply power_field_completes | intros pp].
  apply completes_ret.
Qed.

Lemma reduce_domus_completes ph d : completes (reduce_domus ph d).
Proof.
  unfold reduce_domus.
  apply completes_bind;
    [apply completes_try; intros e; apply completes_handler | intros t].
  apply completes_bind;
    [apply completes_try; intros e; apply completes_handler | intros h].
  apply completes_ret.
Qed.

Lemma reduce_other_completes d : completes (reduce_other d).
Proof. apply completes_ret. Qed.

Lemma add_enc_completes ph total record : completes (add_enc ph total record).
Proof. apply completes_try. intros e. apply completes_handler. Qed.

Lemma sum_enc_completes ph vals : ∀ total, completes (sum_enc ph total vals).
Proof.
  induction vals as [|record rest IH]; intros total; simpl.
  - apply completes_ret.
  - apply completes_bind; [apply add_enc_completes | intros t; apply IH].
Qed.

Lemma total_consumption_completes ph d :
  completes (total_consumption ph d) ↔ stat_well_formed d = true.
Proof.
  unfold total_consumption, stat_well_formed.
  destruct (truthy (get d "STAT" (VList []))) eqn:Htr; simpl.
  2: { split; [done | intros _; apply completes_ret]. }
  destruct (get d "STAT" (VList [])) as [| | | | s | l | m]; simpl;
    try (split; [intros H; by apply not_completes_raise in H | done]).
  - (* a string: its last character has no [get] *)
    split; [|done]. destruct (last (chars s)) as [x|] eqn:Hl; simpl;
      [|intros H; by apply not_completes_raise in H].
    assert (∃ c, x = VStr c) as [c ->].
    { clear -Hl. induction s as [|a s IH]; [done|]. simpl in Hl.
      destruct (chars s) eqn:Hc; [injection Hl as <-; eauto|].
      apply IH. by rewrite <- Hl. }
    intros H; by apply not_completes_raise in H.
  - destruct (last l) as [x|]; simpl;
      [|split; [intros H; by apply not_completes_raise in H | done]].
    destruct x as [| | | | | |latest]; simpl;
      try (split; [intros H; by apply not_completes_raise in H | done]).
    destruct (get latest "VAL" (VList [])) as [| | | | s | vals | m]; simpl;
      try (split; [intros H; by apply not_completes_raise in H | done]);
      (split; [done | intros _]).
    + destruct (sum_enc_completes ph (chars s) 0%float) as (t & lg & ->).
      by eexists _, _.
    + destruct (sum_enc_completes ph vals 0%float) as (t & lg & ->).
      by eexists _, _.
    + destruct (sum_enc_completes ph (VStr <$> (map_to_list m).*1) 0%float)
        as (t & lg & ->).
      by eexists _, _.
Qed.

Lemma reduce_partitions_completes ph d :
  completes (reduce_partitions ph d) ↔ stat_well_formed d = true.
Proof.
  rewrite <- total_consumption_completes. unfold reduce_partitions. split.
  - apply completes_bind_inv.
  - intros H. apply completes_bind; [done | intros t; apply completes_ret].
Qed.

Lemma reduce_unfold ph ty d :
  reduce ph ty d =
    if bool_decide (ty = "system") then reduce_system d
    else if bool_decide (ty = "powerlines") then reduce_powerlines d
    else if bool_decide (ty = "domus") then reduce_domus ph d
    else if bool_decide (ty = "partitions") then reduce_partitions ph d
    else reduce_other d.
Proof. reflexivity. Qed.

Lemma reduce_partitions_eq ph d :
  reduce ph "partitions" d = reduce_partitions ph d.
Proof. reflexivity. Qed.

Lemma reduce_completes_iff ph ty d :
  completes (reduce ph ty d) ↔ (ty = "partitions" → stat_well_formed d = true).
Proof.
  rewrite reduce_unfold. repeat case_bool_decide; subst; try discriminate.
  - split; [done | intros _; apply reduce_system_completes].
  - split; [done | intros _; apply reduce_powerlines_completes].
  - split; [done | intros _; apply reduce_domus_completes].
  - rewrite reduce_partitions_completes. naive_solver.
  - split; [done | intros _; apply reduce_other_completes].
Qed.

(** ** Malformed numeric fields *)

Lemma system_failure_nulls d e :
  parse_temp (get d "TEMP" (VDict ∅)) "IN" = Raise e ∨
  parse_temp (get d "TEMP" (VDict ∅)) "OUT" = Raise e →
  attribute (reduce_system d) "temp_in" = Some VNone ∧
  attribute (reduce_system d) "temp_out" = Some VNone.
Proof.
  unfold reduce_system, attribute.
  destruct (parse_temp _ "IN") as [a|e1], (parse_temp _ "OUT") as [b|e2];
    mstep; intros [H|H]; try discriminate H; by simplify_map_eq.
Qed.

Lemma powerlines_failure_nulls d e :
  (parse_power (get d "PCONS" VNone) = Raise e →
   attribute (reduce_powerlines d) "Consumo" = Some VNone) ∧
  (parse_power (get d "PPROD" VNone) = Raise e →
   attribute (reduce_powerlines d) "Produzione" = Some VNone).
Proof.
  unfold reduce_powerlines, attribute, power_field. split; intros ->;
    [destruct (parse_power (get d "PPROD" VNone))
    |destruct (parse_power (get d "PCONS" VNone))];
    mstep; by simplify_map_eq.
Qed.

Lemma domus_failure_nulls ph d e :
  (parse_T d = Raise e →
   attribute (reduce_domus ph d) "temperature" = Some VNone) ∧
  (parse_H d = Raise e →
   attribute (reduce_domus ph d) "humidity" = Some VNone).
Proof.
  unfold reduce_domus, attribute. split; intros ->;
    [destruct (parse_H d) | destruct (parse_T d)];
    mstep; by simplify_map_eq.
Qed.

(** C1, as amended. The branches for [system], [powerlines], [domus] and
    every other category end normally on every record, in the constructor
    and in the refresh alike; the [partitions] branch ends normally exactly
    on the records whose [STAT] is absent or falsy, or is a list ending in
    a mapping whose [VAL] is absent or iterable. A conversion of [TEMP.IN],
    [TEMP.OUT], [PCONS], [PPROD], [T] or [H] that fails leaves a null in
    the corresponding attribute. *)
Theorem state_reducer_completion (ph : phase) (sensor_type : string) (sensor_data : dict) :
  (completes (reduce ph sensor_type sensor_data) ↔
     (sensor_type = "partitions" → stat_well_formed sensor_data = true)) ∧
  (∀ e, parse_temp (get sensor_data "TEMP" (VDict ∅)) "IN" = Raise e ∨
        parse_temp (get sensor_data "TEMP" (VDict ∅)) "OUT" = Raise e →
        attribute (reduce ph "system" sensor_data) "temp_in" = Some VNone ∧
        attribute (reduce ph "system" sensor_data) "temp_out" = Some VNone) ∧
  (∀ e, parse_power (get sensor_data "PCONS" VNone) = Raise e →
        attribute (reduce ph "powerlines" sensor_data) "Consumo" = Some VNone) ∧
  (∀ e, parse_power (get sensor_data "PPROD" VNone) = Raise e →
        attribute (reduce ph "powerlines" sensor_data) "Produzione" = Some VNone) ∧
  (∀ e, parse_T sensor_data = Raise e →
        attribute (reduce ph "domus" sensor_data) "temperature" = Some VNone) ∧
  (∀ e, parse_H sensor_data = Raise e →
        attribute (reduce ph "domus" sensor_data) "humidity" = Some VNone).
Proof.
  split; [apply reduce_completes_iff|].
  split; [intros e; apply system_failure_nulls|].
  split; [intros e; apply (powerlines_failure_nulls sensor_data e)|].
  split; [intros e; apply (powerlines_failure_nulls sensor_data e)|].
  split; intros e; apply (domus_failure_nulls ph sensor_data e).
Qed.

(** C1 as stated fails: on [null_val_record] the partitions branch raises
    [TypeError] out of the reduction, in the constructor and in the refresh. *)
Lemma reduce_raises_on_null_val :
  reduce Construct "partitions" null_val_record = (Raise TypeError, []) ∧
  reduce Refresh "partitions" null_val_record = (Raise TypeError, []) ∧
  __init__ no_repr null_val_record "partitions" = (Raise TypeError, []).
Proof. repeat split; vm_compute; reflexivity. Qed.

(** ** The catalog builder *)

Lemma fetch_free_ret {A} (a : A) : fetch_free (mret a : M A).
Proof. intros c H. by apply elem_of_nil in H. Qed.

Lemma fetch_free_lift {A} (o : outcome A) : fetch_free (lift o).
Proof. intros c H. by apply elem_of_nil in H. Qed.

Lemma fetch_free_bind {A B} (m : M A) (f : A → M B) :
  fetch_free m → (∀ a, fetch_free (f a)) → fetch_free (m ≫= f).
Proof.
  intros Hm Hf c. destruct m as [[a|e] l]; mstep; [|apply Hm].
  specialize (Hf a c). destruct (f a) as [r l']. unfold events in *. simpl in *.
  rewrite elem_of_app. intros [H|H]; [by apply (Hm c) | done].
Qed.

Lemma fetch_free_try {A} (body : M A) (h : exn → M A) :
  fetch_free body → (∀ e, fetch_free (h e)) → fetch_free (try_except body h).
Proof.
  intros Hm Hh c. destruct body as [[a|e] l]; mstep; [apply Hm|].
  specialize (Hh e c). destruct (h e) as [r l']. unfold events in *. simpl in *.
  rewrite elem_of_app. intros [H|H]; [by apply (Hm c) | done].
Qed.

Lemma fetch_free_handler {A} (msg : string) (a : A) (e : exn) :
  fetch_free (emit (LogError msg e);; mret a : M A).
Proof.
  intros c H. unfold events in H. simpl in H.
  apply list_elem_of_singleton in H. discriminate H.
Qed.

Create HintDb fetch.
#[local] Hint Resolve fetch_free_ret fetch_free_lift fetch_free_handler : fetch.
#[local] Hint Extern 2 (fetch_free (_ ≫= _)) =>
  apply fetch_free_bind; [|intros ?] : fetch.
#[local] Hint Extern 2 (fetch_free (try_except _ _)) =>
  apply fetch_free_try; [|intros ?] : fetch.

Lemma sum_enc_fetch_free ph vals : ∀ total, fetch_free (sum_enc ph total vals).
Proof.
  induction vals as [|record rest IH]; intros total; simpl; [auto with fetch|].
  apply fetch_free_bind; [unfold add_enc; auto 7 with fetch | intros t; apply IH].
Qed.

Lemma reduce_fetch_free ph ty d : fetch_free (reduce ph ty d).
Proof.
  rewrite reduce_unfold. repeat case_bool_decide.
  - unfold reduce_system. apply fetch_free_bind; [|intros [a b]]; auto 7 with fetch.
  - unfold reduce_powerlines, power_field. auto 9 with fetch.
  - unfold reduce_domus. auto 9 with fetch.
  - unfold reduce_partitions, total_consumption.
    apply fetch_free_bind; [|auto with fetch].
    destruct (truthy _); [|auto with fetch].
    repeat (apply fetch_free_bind; [auto with fetch | intros ?]).
    apply sum_enc_fetch_free.
  - unfold reduce_other. auto with fetch.
Qed.

Lemma init_fetch_free py_repr d ty : fetch_free (__init__ py_repr d ty).
Proof.
  unfold __init__. apply fetch_free_bind; [auto with fetch | intros id].
  apply fetch_free_bind; [apply reduce_fetch_free | intros [st attrs]].
  auto with fetch.
Qed.

Lemma append_entities_fetch_free py_repr sensors ty :
  ∀ es, fetch_free (append_entities py_repr sensors ty es).
Proof.
  induction sensors as [|d rest IH]; intros es; simpl; [auto with fetch|].
  apply fetch_free_bind; [apply init_fetch_free | intros e; apply IH].
Qed.

Lemma setup_as_stages py_repr ws :
  async_setup_entry py_repr ws = run_stages py_repr ws setup_stages [].
Proof. reflexivity. Qed.

(** One block of the setup, case by case. *)
Lemma run_stages_cons py_repr ws c fmt ty rest es :
  run_stages py_repr ws ((c, fmt, ty) :: rest) es =
    match ws c with
    | Raise e => (Raise e, [Fetch c])
    | Ok sensors =>
        match append_entities py_repr sensors ty es with
        | (Ok es', l) =>
            let '(r, l') := run_stages py_repr ws rest es' in
            (r, Fetch c :: LogDebug fmt sensors :: l ++ l')
        | (Raise e, l) => (Raise e, Fetch c :: LogDebug fmt sensors :: l)
        end
    end.
Proof.
  cbn [run_stages]. unfold await. destruct (ws c) as [sensors|e]; [|done].
  mstep. destruct (append_entities py_repr sensors ty es) as [[es'|e] l]; [|done].
  mstep. by destruct (run_stages py_repr ws rest es') as [r l'].
Qed.

Lemma run_stages_failure py_repr ws stages :
  ∀ es i c fmt ty e,
    stages !! i = Some (c, fmt, ty) → ws c = Raise e →
    ∃ e' log, run_stages py_repr ws stages es = (Raise e', log) ∧
      ∀ c', Fetch c' ∈ log → c' ∈ (take (S i) stages).*1.*1.
Proof.
  induction stages as [|[[c0 fmt0] ty0] rest IH]; intros es i c fmt ty e Hi Hc;
    [done|].
  rewrite run_stages_cons. destruct i as [|i]; simpl in Hi.
  - injection Hi as -> -> ->. rewrite Hc. exists e, [Fetch c]. split; [done|].
    intros c' H. apply list_elem_of_singleton in H. injection H as ->.
    simpl. apply elem_of_cons. by left.
  - destruct (ws c0) as [sensors|e0].
    2: { exists e0, [Fetch c0]. split; [done|]. intros c' H.
         apply list_elem_of_singleton in H. injection H as ->.
         simpl. apply elem_of_cons. by left. }
    pose proof (append_entities_fetch_free py_repr sensors ty0 es) as Hfree.
    destruct (append_entities py_repr sensors ty0 es) as [[es'|e1] l].
    + destruct (IH es' i c fmt ty e Hi Hc) as (e' & log & -> & Hlog).
      exists e', (Fetch c0 :: LogDebug fmt0 sensors :: l ++ log).
      split; [done|]. intros c' H. simpl.
      apply elem_of_cons in H as [H|H]; [injection H as ->; apply elem_of_cons; by left|].
      apply elem_of_cons in H as [H|H]; [discriminate H|].
      apply elem_of_app in H as [H|H]; [by apply Hfree in H|].
      apply elem_of_cons. right. by apply Hlog.
    + exists e1, (Fetch c0 :: LogDebug fmt0 sensors :: l).
      split; [done|]. intros c' H. simpl.
      apply elem_of_cons in H as [H|H]; [injection H as ->; apply elem_of_cons; by left|].
      apply elem_of_cons in H as [H|H]; [discriminate H|].
      by apply Hfree in H.
Qed.

(** C2, as amended. When the fetch of one category raises, the setup
    raises as well: the list of entities is never handed to the platform,
    and no category that comes after the failing one is fetched. *)
Theorem setup_fetch_failure (py_repr : value → string) (ws_manager : WsManager)
    (i : nat) (c : fetch_call) (e : exn) :
  setup_fetches !! i = Some c →
  ws_manager c = Raise e →
  ∃ e' log,
    async_setup_entry py_repr ws_manager = (Raise e', log) ∧
    ∀ j c', setup_fetches !! j = Some c' → (i < j)%nat → Fetch c' ∉ log.
Proof.
  intros Hi Hc. rewrite setup_as_stages.
  assert (∃ fmt ty, setup_stages !! i = Some (c, fmt, ty)) as (fmt & ty & Hst).
  { unfold setup_fetches in Hi. rewrite !list_lookup_fmap in Hi.
    destruct (setup_stages !! i) as [[[c0 fmt] ty]|]; [|done].
    injection Hi as ->. eauto. }
  destruct (run_stages_failure py_repr ws_manager setup_stages [] i c fmt ty e Hst Hc)
    as (e' & log & Hrun & Hlog).
  exists e', log. split; [done|]. intros j c' Hj Hlt Hin.
  apply Hlog in Hin. clear -Hst Hj Hlt Hin.
  destruct i as [|[|[|[|[|?]]]]]; try discriminate Hst;
    destruct j as [|[|[|[|[|?]]]]]; try discriminate Hj; try lia;
    injection Hj as <-; simpl in Hin;
    repeat (apply elem_of_cons in Hin as [Hin|Hin]; [discriminate Hin|]);
    by apply elem_of_nil in Hin.
Qed.

Lemma setup_fetch_failure_witness :
  ∃ e' log,
    async_setup_entry no_repr zones_down = (Raise e', log) ∧
    ∀ j c', setup_fetches !! j = Some c' → (3 < j)%nat → Fetch c' ∉ log.
Proof.
  apply (setup_fetch_failure no_repr zones_down 3 (GetSensor "ZONES")
           (OtherError "TimeoutError")); reflexivity.
Defined.

(** C2 as stated fails: with the domus fetch down and every other category
    ready to answer, the setup raises after its first fetch; nothing else is
    fetched and no entity is produced. *)
Lemma setup_aborts_when_dom_down :
  async_setup_entry no_repr dom_down =
    (Raise (OtherError "ConnectionError"), [Fetch GetDom]).
Proof. reflexivity. Qed.

(** ** The system branch *)

Lemma reduce_system_eq ph d : reduce ph "system" d = reduce_system d.
Proof. reflexivity. Qed.

Lemma parse_temp_nullable t key v :
  parse_temp t key = Ok v → nullable_float v.
Proof.
  unfold parse_temp. destruct t as [| | | | | |m]; try discriminate.
  cbn [py_get mbind outcome_bind]. destruct (truthy _).
  - destruct (py_remove _ _ _) as [s|]; [|discriminate].
    cbn [mbind outcome_bind]. destruct (PyFloat.of_str s) as [f|]; [|discriminate].
    intros [= <-]. right. by exists f.
  - intros [= <-]. by left.
Qed.

Lemma parse_temp_text (t : dict) key s :
  s ≠ EmptyString → t !! key = Some (VStr s) →
  parse_temp (VDict t) key = VFloat <$> PyFloat.of_str (Str.remove "+" None s).
Proof.
  intros Hs Ht. unfold parse_temp, py_get, get. rewrite Ht.
  cbn [default from_option id mbind outcome_bind truthy py_remove].
  by rewrite bool_decide_false.
Qed.

Lemma parse_temp_absent (t : dict) key :
  t !! key = None ∨ t !! key = Some (VStr EmptyString) →
  parse_temp (VDict t) key = Ok VNone.
Proof. unfold parse_temp, py_get, get. by intros [-> | ->]. Qed.

Lemma remove_all_none c s : Str.count_char c (Str.remove c None s) = 0%nat.
Proof.
  induction s as [|a s IH]; [done|]. cbn [Str.remove fmap option_fmap option_map].
  case_bool_decide as Ha; [done|]. cbn [Str.count_char].
  by rewrite bool_decide_false.
Qed.

(** C3, as amended. For every system record the state is the raw [ARM]
    field, ["unknown"] when absent, and the attributes are exactly [temp_in]
    and [temp_out], each null or a float. Each of [TEMP.IN] and [TEMP.OUT] is
    null when absent or empty; otherwise every [+] in its text is removed,
    wherever it stands, and the rest is converted to a float. When either
    conversion fails both attributes are null. *)
Theorem system_reduction (ph : phase) (sensor_data : dict) :
  let temp_data := get sensor_data "TEMP" (VDict ∅) in
  (∃ temp_in temp_out log,
     reduce ph "system" sensor_data =
       (Ok (get sensor_data "ARM" (VStr "unknown"),
            <["temp_in" := temp_in]> (<["temp_out" := temp_out]> ∅)), log) ∧
     nullable_float temp_in ∧ nullable_float temp_out ∧
     match parse_temp temp_data "IN", parse_temp temp_data "OUT" with
     | Ok a, Ok b => temp_in = a ∧ temp_out = b ∧ log = []
     | Raise e, _ | Ok _, Raise e =>
         temp_in = VNone ∧ temp_out = VNone ∧
         log = [LogError "Error converting temperature: %s" e]
     end) ∧
  (∀ (t : dict) key s, s ≠ EmptyString → t !! key = Some (VStr s) →
     parse_temp (VDict t) key = VFloat <$> PyFloat.of_str (Str.remove "+" None s) ∧
     Str.count_char "+" (Str.remove "+" None s) = 0%nat) ∧
  (∀ (t : dict) key, t !! key = None ∨ t !! key = Some (VStr EmptyString) →
     parse_temp (VDict t) key = Ok VNone).
Proof.
  intros temp_data. split; [|split].
  - rewrite reduce_system_eq. unfold reduce_system. fold temp_data.
    destruct (parse_temp temp_data "IN") as [a|e1] eqn:Ha;
      [destruct (parse_temp temp_data "OUT") as [b|e2] eqn:Hb|]; mstep.
    + exists a, b, []. repeat split; eauto using parse_temp_nullable.
    + exists VNone, VNone, [LogError "Error converting temperature: %s" e2].
      repeat split; by left.
    + exists VNone, VNone, [LogError "Error converting temperature: %s" e1].
      repeat split; by left.
  - intros t key s Hs Ht. split; [by apply parse_temp_text | apply remove_all_none].
  - apply parse_temp_absent.
Qed.

(** The example of the specification. *)
Example system_armed :
  reduce Construct "system" armed_record =
    (Ok (VStr "ARMED",
         <["temp_in" := VFloat 21]> (<["temp_out" := VFloat 5.5]> ∅)), []).
Proof. vm_compute. reflexivity. Qed.

(** C3 as stated fails: stripping a leading [+] from ["2+1.0"] leaves a text
    that is no float, yet the branch reads 21.0 from it, in the constructor
    and in the refresh. *)
Lemma inner_plus_is_read :
  PyFloat.of_str (strip_leading_plus "2+1.0") = Raise ValueError ∧
  reduce Construct "system" inner_plus_record =
    (Ok (VStr "ARMED",
         <["temp_in" := VFloat 21]> (<["temp_out" := VFloat 5.5]> ∅)), []) ∧
  reduce Refresh "system" inner_plus_record =
    (Ok (VStr "ARMED",
         <["temp_in" := VFloat 21]> (<["temp_out" := VFloat 5.5]> ∅)), []).
Proof. repeat split; vm_compute; reflexivity. Qed.

(** ** The partitions branch *)

Lemma add_enc_spec ph total record :
  add_enc ph total record =
    match py_get record "ENC" (VInt 0) ≫= py_float with
    | Ok x => (Ok (total + x)%float, [])
    | Raise e => (Ok total, [LogError (partitions_msg ph) e])
    end.
Proof.
  unfold add_enc.
  destruct (py_get record "ENC" (VInt 0)) as [enc|e]; [|done].
  mstep. by destruct (py_float enc).
Qed.

Lemma sum_enc_spec ph vals :
  ∀ total, ∃ log,
    sum_enc ph total vals = (Ok (foldl PrimFloat.add total (omap parsed_enc vals)), log).
Proof.
  induction vals as [|record rest IH]; intros total; [by exists []|].
  cbn [sum_enc omap list_omap]. rewrite add_enc_spec. unfold parsed_enc.
  destruct (py_get record "ENC" (VInt 0) ≫= py_float) as [x|e].
  - destruct (IH (total + x)%float) as [log Hlog]. exists log.
    mstep. by rewrite Hlog.
  - destruct (IH total) as [log Hlog]. eexists. mstep. by rewrite Hlog.
Qed.

Lemma total_consumption_spec ph d :
  stat_well_formed d = true →
  ∃ log, total_consumption ph d = (Ok (enc_sum d), log).
Proof.
  unfold total_consumption, stat_well_formed, enc_sum, latest_vals, float_sum.
  destruct (get d "STAT" (VList [])) as [| b | z | f | s | l | m];
    destruct (truthy _) eqn:Htr; cbn [negb orb]; try discriminate;
    try (intros _; by exists []).
  - cbn [py_last].
    destruct (last l) as [[| | | | | |latest]|]; try discriminate.
    mstep. cbn [py_get]. generalize (get latest "VAL" (VList [])).
    intros vals Hit. mstep.
    destruct vals; try discriminate Hit; cbn [py_iter];
      match goal with
      | |- context [sum_enc ph ?t ?vs] =>
          destruct (sum_enc_spec ph vs t) as [log Hlog]
      end; exists log; by rewrite Hlog.
  - intros _. exists []. cbn [truthy] in Htr.
    apply negb_false_iff, bool_decide_eq_true in Htr.
    by destruct l.
Qed.

Lemma reduce_partitions_spec ph d :
  stat_well_formed d = true →
  ∃ log,
    reduce ph "partitions" d =
      (Ok (if (0 <? enc_sum d)%float then VFloat (enc_sum d)
           else get d "STA" (VStr "unknown"),
           <["total_consumption" := VFloat (enc_sum d)]> d), log).
Proof.
  intros Hwf. rewrite reduce_partitions_eq. unfold reduce_partitions.
  destruct (total_consumption_spec ph d Hwf) as [log ->]. exists (log ++ []).
  reflexivity.
Qed.

Lemma enc_sum_no_stat (d : dict) :
  d !! "STAT" = None ∨ d !! "STAT" = Some (VList []) ∨ d !! "STAT" = Some VNone →
  enc_sum d = 0%float.
Proof.
  unfold enc_sum, latest_vals, get. by intros [-> | [-> | ->]].
Qed.

Lemma enc_sum_no_val (d : dict) l (latest_stat : dict) :
  d !! "STAT" = Some (VList (l ++ [VDict latest_stat])) →
  latest_stat !! "VAL" = None →
  enc_sum d = 0%float.
Proof.
  unfold enc_sum, latest_vals, get. intros -> Hval. cbn [default from_option id].
  rewrite last_snoc. by rewrite Hval.
Qed.

(** C4, as amended. For every partitions record whose [STAT] is absent or
    falsy, or is a list ending in a mapping whose [VAL] is absent or
    iterable: [total_consumption] is the float sum, from 0.0 and in order,
    of the [ENC] fields that convert, over the entries of [VAL] in the last
    element of [STAT]; the state is that sum when it is strictly positive
    and the raw [STA] field, ["unknown"] when absent, otherwise; the
    attributes are the record with [total_consumption] overlaid. A missing
    or empty [STAT] and a missing [VAL] give the sum 0.0. *)
Theorem partitions_reduction (ph : phase) (sensor_data : dict) :
  stat_well_formed sensor_data = true →
  let total := enc_sum sensor_data in
  (∃ log,
     reduce ph "partitions" sensor_data =
       (Ok (if (0 <? total)%float then VFloat total
            else get sensor_data "STA" (VStr "unknown"),
            <["total_consumption" := VFloat total]> sensor_data), log)) ∧
  attribute (reduce ph "partitions" sensor_data) "total_consumption"
    = Some (VFloat total) ∧
  (∀ k, k ≠ "total_consumption" →
     attribute (reduce ph "partitions" sensor_data) k = sensor_data !! k) ∧
  (sensor_data !! "STAT" = None ∨ sensor_data !! "STAT" = Some (VList []) →
     total = 0%float) ∧
  (∀ l (latest_stat : dict),
     sensor_data !! "STAT" = Some (VList (l ++ [VDict latest_stat])) →
     latest_stat !! "VAL" = None → total = 0%float).
Proof.
  intros Hwf total.
  destruct (reduce_partitions_spec ph sensor_data Hwf) as [log Hred].
  split; [by exists log|]. rewrite Hred. unfold attribute.
  split; [by rewrite lookup_insert_eq|].
  split; [intros k Hk; by rewrite lookup_insert_ne|].
  split; [intros H; apply enc_sum_no_stat; tauto|].
  apply enc_sum_no_val.
Qed.

Lemma partitions_reduction_witness :
  let total := enc_sum metered_record in
  (∃ log,
     reduce Construct "partitions" metered_record =
       (Ok (if (0 <? total)%float then VFloat total
            else get metered_record "STA" (VStr "unknown"),
            <["total_consumption" := VFloat total]> metered_record), log)) ∧
  attribute (reduce Construct "partitions" metered_record) "total_consumption"
    = Some (VFloat total) ∧
  (∀ k, k ≠ "total_consumption" →
     attribute (reduce Construct "partitions" metered_record) k = metered_record !! k) ∧
  (metered_record !! "STAT" = None ∨ metered_record !! "STAT" = Some (VList []) →
     total = 0%float) ∧
  (∀ l (latest_stat : dict),
     metered_record !! "STAT" = Some (VList (l ++ [VDict latest_stat])) →
     latest_stat !! "VAL" = None → total = 0%float).
Proof. apply (partitions_reduction Construct metered_record). reflexivity. Defined.

(** The example of the specification: the sum is 4.0 and it is the state. *)
Example partitions_metered :
  enc_sum metered_record = 4%float ∧
  state_of (reduce Construct "partitions" metered_record) = Some (VFloat 4) ∧
  state_of (reduce Refresh "partitions" metered_record) = Some (VFloat 4).
Proof. repeat split; vm_compute; reflexivity. Qed.

(** C4 as stated fails: on [null_val_record] the claim's sum is 0.0, so it
    promises the state ["D"] and a [total_consumption] of 0.0, but the branch
    raises and yields neither a state nor attributes. *)
Lemma null_val_has_no_total :
  enc_sum null_val_record = 0%float ∧
  state_of (reduce Construct "partitions" null_val_record) = None ∧
  attribute (reduce Construct "partitions" null_val_record) "total_consumption" = None ∧
  state_of (reduce Refresh "partitions" null_val_record) = None ∧
  attribute (reduce Refresh "partitions" null_val_record) "total_consumption" = None.
Proof. repeat split; vm_compute; reflexivity. Qed.

(** ** The powerlines branch *)

Lemma reduce_powerlines_eq ph d : reduce ph "powerlines" d = reduce_powerlines d.
Proof. reflexivity. Qed.

Lemma parse_power_text s :
  parse_power (VStr s) =
    if power_accepts s then VFloat <$> PyFloat.of_str s else Ok VNone.
Proof.
  unfold parse_power, power_accepts. cbn [truthy py_remove mbind outcome_bind py_float].
  by destruct (bool_decide (s = EmptyString)), (Str.isdigit _).
Qed.

Lemma append_nil (s : string) : EmptyString +:+ s = s.
Proof. reflexivity. Qed.

Lemma append_cons c (a b : string) : String c a +:+ b = String c (a +:+ b).
Proof. reflexivity. Qed.

Lemma remove_zero c s : Str.remove c (Some 0%nat) s = s.
Proof. by destruct s. Qed.

Lemma remove_first_split s :
  ∃ a b, (s = a +:+ b ∨ s = a +:+ String "." b) ∧
         Str.remove "." (Some 1%nat) s = a +:+ b.
Proof.
  induction s as [|c s (a & b & Hs & Hr)].
  - by exists EmptyString, EmptyString; split; [left|].
  - cbn [Str.remove fmap option_fmap option_map pred]. case_bool_decide as Hc.
    + subst c. exists EmptyString, s. rewrite remove_zero. split; [by right | done].
    + exists (String c a), b. rewrite !append_cons, Hr.
      split; [|done]. destruct Hs as [-> | ->]; [by left | by right].
Qed.

Lemma remove_first_count c s :
  Str.count_char c (Str.remove c (Some 1%nat) s) = pred (Str.count_char c s).
Proof.
  induction s as [|a s IH]; [done|].
  cbn [Str.remove fmap option_fmap option_map pred Str.count_char].
  case_bool_decide as Ha.
  - by rewrite remove_zero.
  - cbn [Str.count_char]. rewrite bool_decide_false by done. by rewrite IH.
Qed.

Lemma all_digits_no_dot s :
  Str.all_chars Str.char_isdigit s = true → Str.count_char "." s = 0%nat.
Proof.
  induction s as [|a s IH]; [done|]. cbn [Str.all_chars Str.count_char].
  intros [Ha Hs]%andb_true_iff. rewrite (IH Hs). case_bool_decide as Hd; [|done].
  subst a. discriminate Ha.
Qed.

Lemma isdigit_all s : Str.isdigit s = true → Str.all_chars Str.char_isdigit s = true.
Proof. by destruct s. Qed.

Lemma all_chars_remove_first p a c b :
  c ≠ "."%char →
  Str.all_chars p (Str.remove "." (Some 1%nat) (a +:+ String c b)) = true →
  p c = true.
Proof.
  intros Hc. induction a as [|x a IH].
  - rewrite append_nil. cbn [Str.remove]. rewrite bool_decide_false by done.
    cbn [Str.all_chars]. by intros [? ?]%andb_true_iff.
  - rewrite append_cons. cbn [Str.remove fmap option_fmap option_map pred].
    case_bool_decide as Hx.
    + rewrite remove_zero. clear IH.
      induction a as [|y a IH]; rewrite ?append_nil, ?append_cons;
        cbn [Str.all_chars].
      * by intros [? ?]%andb_true_iff.
      * intros [_ H]%andb_true_iff. by apply IH.
    + cbn [Str.all_chars]. intros [_ H]%andb_true_iff. by apply IH.
Qed.

Lemma accepts_shape s :
  power_accepts s = true →
  ∃ a b, (s = a +:+ b ∨ s = a +:+ String "." b) ∧ a +:+ b ≠ EmptyString ∧
         Str.all_chars Str.char_isdigit (a +:+ b) = true.
Proof.
  unfold power_accepts. intros [_ Hd]%andb_true_iff.
  destruct (remove_first_split s) as (a & b & Hs & Hr). rewrite Hr in Hd.
  exists a, b. split; [done|]. split; [|by apply isdigit_all].
  intros Hab. by rewrite Hab in Hd.
Qed.

Lemma rejects_two_dots s :
  (1 < Str.count_char "." s)%nat → power_accepts s = false.
Proof.
  intros Hn. unfold power_accepts. apply andb_false_iff. right.
  apply not_true_is_false. intros Hd%isdigit_all%all_digits_no_dot.
  rewrite remove_first_count in Hd. lia.
Qed.

Lemma rejects_non_digit a c b :
  c ≠ "."%char → Str.char_isdigit c = false →
  power_accepts (a +:+ String c b) = false.
Proof.
  intros Hc Hnd. unfold power_accepts. apply andb_false_iff. right.
  apply not_true_is_false. intros Hd%isdigit_all.
  apply all_chars_remove_first in Hd; [congruence | done].
Qed.

Lemma rejects_minus s : power_accepts (String "-" s) = false.
Proof. by apply (rejects_non_digit EmptyString "-" s). Qed.

Lemma rejected_falls_back ph (d : dict) s :
  d !! "PCONS" = Some (VStr s) → power_accepts s = false →
  state_of (reduce ph "powerlines" d) = Some (get d "STATUS" (VStr "unknown")) ∧
  attribute (reduce ph "powerlines" d) "Consumo" = Some VNone.
Proof.
  intros Hd Hrej. rewrite reduce_powerlines_eq.
  assert (get d "PCONS" VNone = VStr s) as Hget by (unfold get; by rewrite Hd).
  unfold reduce_powerlines, power_field, state_of, attribute.
  rewrite Hget, parse_power_text, Hrej. mstep.
  destruct (parse_power (get d "PPROD" VNone)); mstep; by simplify_map_eq.
Qed.

Lemma rejected_production ph (d : dict) s :
  d !! "PPROD" = Some (VStr s) → power_accepts s = false →
  attribute (reduce ph "powerlines" d) "Produzione" = Some VNone.
Proof.
  intros Hd Hrej. rewrite reduce_powerlines_eq.
  assert (get d "PPROD" VNone = VStr s) as Hget by (unfold get; by rewrite Hd).
  unfold reduce_powerlines, power_field, attribute.
  rewrite Hget, parse_power_text, Hrej.
  destruct (parse_power (get d "PCONS" VNone)); mstep; by simplify_map_eq.
Qed.

(** The [.] that the check takes out may stand anywhere, also first or last. *)
Example accepts_edge_dot :
  power_accepts ".5" = true ∧ power_accepts "5." = true ∧
  power_accepts "." = false ∧ power_accepts "1.2.3" = false.
Proof. repeat split; reflexivity. Qed.

Lemma parse_power_nullable p v : parse_power p = Ok v → nullable_float v.
Proof.
  unfold parse_power. destruct (truthy p); [|intros [= <-]; by left].
  destruct (py_remove p "." (Some 1%nat)) as [s|]; [|discriminate].
  cbn [mbind outcome_bind]. destruct (Str.isdigit s); [|intros [= <-]; by left].
  destruct (py_float p) as [f|]; [|discriminate].
  intros [= <-]. right. by exists f.
Qed.

Lemma power_value_nullable p : nullable_float (power_value p).
Proof.
  unfold power_value. destruct (parse_power p) as [v|e] eqn:Hp; [|by left].
  by apply parse_power_nullable in Hp.
Qed.

Lemma power_field_spec d key msg :
  ∃ log, power_field d key msg = (Ok (power_value (get d key VNone)), log).
Proof.
  unfold power_field, power_value.
  destruct (parse_power (get d key VNone)) as [v|e]; by eexists.
Qed.

Lemma all_chars_app p a b :
  Str.all_chars p (a +:+ b) = Str.all_chars p a && Str.all_chars p b.
Proof.
  induction a as [|c a IH]; rewrite ?append_nil, ?append_cons; [done|].
  cbn [Str.all_chars]. by rewrite IH, andb_assoc.
Qed.

Lemma power_field_raise d key msg e :
  parse_power (get d key VNone) = Raise e →
  power_field d key msg = (Ok VNone, [LogError msg e]).
Proof. unfold power_field. by intros ->. Qed.

Lemma remove_no_dot t :
  Str.all_chars Str.char_isdigit t = true → Str.remove "." (Some 1%nat) t = t.
Proof.
  induction t as [|c t IH]; [done|]. cbn [Str.all_chars Str.remove].
  intros [Hc Ht]%andb_true_iff.
  rewrite bool_decide_false by (intros ->; discriminate Hc). by rewrite (IH Ht).
Qed.

Lemma remove_first_after a t :
  Str.all_chars Str.char_isdigit a = true →
  Str.remove "." (Some 1%nat) (a +:+ String "." t) = a +:+ t.
Proof.
  induction a as [|c a IH]; rewrite ?append_nil, ?append_cons.
  - intros _. cbn [Str.remove fmap option_fmap option_map pred].
    rewrite bool_decide_true by done. apply remove_zero.
  - cbn [Str.all_chars Str.remove]. intros [Hc Ha]%andb_true_iff.
    rewrite bool_decide_false by (intros ->; discriminate Hc). by rewrite (IH Ha).
Qed.

Lemma all_digits_isdigit t :
  t ≠ EmptyString → Str.all_chars Str.char_isdigit t = true → Str.isdigit t = true.
Proof. by destruct t. Qed.

Lemma accepts_any_dot a b :
  a +:+ b ≠ EmptyString → Str.all_chars Str.char_isdigit (a +:+ b) = true →
  power_accepts (a +:+ b) = true ∧ power_accepts (a +:+ String "." b) = true.
Proof.
  intros Hne Hall. unfold power_accepts. split.
  - rewrite bool_decide_false by done. rewrite (remove_no_dot _ Hall).
    by rewrite (all_digits_isdigit _ Hne Hall).
  - rewrite bool_decide_false by (by destruct a).
    rewrite all_chars_app in Hall. apply andb_true_iff in Hall as [Ha Hb].
    rewrite (remove_first_after a b Ha).
    by rewrite (all_digits_isdigit _ Hne) by (by rewrite all_chars_app, Ha, Hb).
Qed.

Lemma accepted_unconvertible ph (d : dict) s e :
  d !! "PCONS" = Some (VStr s) → power_accepts s = true →
  PyFloat.of_str s = Raise e →
  state_of (reduce ph "powerlines" d) = Some (get d "STATUS" (VStr "unknown")) ∧
  attribute (reduce ph "powerlines" d) "Consumo" = Some VNone ∧
  LogError "Error converting PCONS: %s" e ∈ events (reduce ph "powerlines" d).
Proof.
  intros Hd Hacc Hf. rewrite reduce_powerlines_eq. unfold reduce_powerlines.
  assert (parse_power (get d "PCONS" VNone) = Raise e) as Hp.
  { unfold get. rewrite Hd. cbn [default from_option id].
    by rewrite parse_power_text, Hacc, Hf. }
  rewrite (power_field_raise d "PCONS" _ e Hp).
  destruct (power_field_spec d "PPROD" "Error converting PPROD: %s") as [l ->].
  mstep. unfold attribute, state_of, events. cbn [snd].
  split; [done|]. split; [by simplify_map_eq|]. apply elem_of_cons. by left.
Qed.

(** C5, as amended. The acceptance check of the powerlines branch on a text
    field: the field is converted only when the text is accepted. A text is
    accepted exactly when taking out its first [.], if it has one and
    wherever it stands, the first and the last position included, leaves a
    non-empty run of characters that [str.isdigit] counts as digits, which
    besides the ASCII digits are the superscripts such as U+00B2. A text with
    two or more [.], with any character that is neither such a digit nor a
    [.], or with a leading [-] is rejected; a rejected [PCONS] or [PPROD] is
    null and with [PCONS] rejected the state is the [STATUS] field, as for
    [PCONS = "-5"]. An accepted text that does not convert, as the superscript
    two, gives null as well, with the error logged. *)
Theorem powerlines_acceptance :
  (∀ s, parse_power (VStr s) =
          if power_accepts s then VFloat <$> PyFloat.of_str s else Ok VNone) ∧
  (∀ s, power_accepts s = true →
     ∃ a b, (s = a +:+ b ∨ s = a +:+ String "." b) ∧ a +:+ b ≠ EmptyString ∧
            Str.all_chars Str.char_isdigit (a +:+ b) = true) ∧
  (∀ a b, a +:+ b ≠ EmptyString →
     Str.all_chars Str.char_isdigit (a +:+ b) = true →
     power_accepts (a +:+ b) = true ∧ power_accepts (a +:+ String "." b) = true) ∧
  (∀ s, (1 < Str.count_char "." s)%nat → power_accepts s = false) ∧
  (∀ a c b, c ≠ "."%char → Str.char_isdigit c = false →
     power_accepts (a +:+ String c b) = false) ∧
  (∀ s, power_accepts (String "-" s) = false) ∧
  (∀ ph (d : dict) s, d !! "PCONS" = Some (VStr s) → power_accepts s = false →
     state_of (reduce ph "powerlines" d) = Some (get d "STATUS" (VStr "unknown")) ∧
     attribute (reduce ph "powerlines" d) "Consumo" = Some VNone) ∧
  (∀ ph (d : dict) s, d !! "PPROD" = Some (VStr s) → power_accepts s = false →
     attribute (reduce ph "powerlines" d) "Produzione" = Some VNone) ∧
  (∀ ph, power_accepts "-5" = false ∧
         state_of (reduce ph "powerlines" minus_five_record) = Some (VStr "on") ∧
         attribute (reduce ph "powerlines" minus_five_record) "Consumo" = Some VNone) ∧
  (∀ ph (d : dict) s e, d !! "PCONS" = Some (VStr s) → power_accepts s = true →
     PyFloat.of_str s = Raise e →
     state_of (reduce ph "powerlines" d) = Some (get d "STATUS" (VStr "unknown")) ∧
     attribute (reduce ph "powerlines" d) "Consumo" = Some VNone ∧
     LogError "Error converting PCONS: %s" e ∈ events (reduce ph "powerlines" d)) ∧
  (Str.char_isdigit (ascii_of_N 178) = true ∧
   power_accepts superscript_two = true ∧
   PyFloat.of_str superscript_two = Raise ValueError).
Proof.
  split; [apply parse_power_text|].
  split; [apply accepts_shape|].
  split; [apply accepts_any_dot|].
  split; [apply rejects_two_dots|].
  split; [apply rejects_non_digit|].
  split; [apply rejects_minus|].
  split; [apply rejected_falls_back|].
  split; [apply rejected_production|].
  split.
  { intros ph. split; [reflexivity|].
    apply (rejected_falls_back ph minus_five_record "-5"); reflexivity. }
  split; [apply accepted_unconvertible|].
  repeat split; reflexivity.
Qed.

(** C5 as stated fails: in [".5"] the only [.] is the first character, not
    an internal one, so the check as the claim words it rejects the text; the
    code accepts it, and [PCONS = ".5"] gives the state 0.5 instead of the
    [STATUS] field, in the constructor and in the refresh. *)
Lemma edge_dot_is_accepted :
  claimed_accepts ".5" = false ∧
  power_accepts ".5" = true ∧
  reduce Construct "powerlines" edge_dot_record =
    (Ok (VFloat 0.5,
         <["Consumo" := VFloat 0.5]>
           (<["Produzione" := VNone]> (<["Status" := VStr "on"]> ∅))), []) ∧
  reduce Refresh "powerlines" edge_dot_record =
    (Ok (VFloat 0.5,
         <["Consumo" := VFloat 0.5]>
           (<["Produzione" := VNone]> (<["Status" := VStr "on"]> ∅))), []).
Proof. repeat split; vm_compute; reflexivity. Qed.

(** The check as the claim words it does accept an internal point. *)
Example claimed_accepts_inner :
  claimed_accepts "12.5" = true ∧ claimed_accepts "3" = true ∧
  claimed_accepts "5." = false ∧ claimed_accepts "1.2.3" = false ∧
  claimed_accepts "-5" = false.
Proof. repeat split; reflexivity. Qed.

(** C6. For every powerlines record the state is the numeric value of
    [PCONS] when there is one and the raw [STATUS] field, ["unknown"] when
    absent, otherwise; the attributes are exactly [Consumo], [Produzione] and
    [Status]. With [PCONS = "12.5"], [PPROD = "3"], [STATUS = "on"] the state
    is 12.5 and the attributes are 12.5, 3.0 and ["on"]. *)
Theorem powerlines_reduction (ph : phase) (sensor_data : dict) :
  let status := get sensor_data "STATUS" (VStr "unknown") in
  let pcons_val := power_value (get sensor_data "PCONS" VNone) in
  let pprod_val := power_value (get sensor_data "PPROD" VNone) in
  (∃ log,
     reduce ph "powerlines" sensor_data =
       (Ok (match pcons_val with VNone => status | _ => pcons_val end,
            <["Consumo" := pcons_val]>
              (<["Produzione" := pprod_val]> (<["Status" := status]> ∅))), log)) ∧
  nullable_float pcons_val ∧ nullable_float pprod_val ∧
  reduce ph "powerlines" metering_line_record =
    (Ok (VFloat 12.5,
         <["Consumo" := VFloat 12.5]>
           (<["Produzione" := VFloat 3]> (<["Status" := VStr "on"]> ∅))), []).
Proof.
  intros status pcons_val pprod_val.
  split; [|split; [apply power_value_nullable|split; [apply power_value_nullable|]]].
  - rewrite reduce_powerlines_eq. unfold reduce_powerlines.
    destruct (power_field_spec sensor_data "PCONS" "Error converting PCONS: %s")
      as [l1 ->].
    destruct (power_field_spec sensor_data "PPROD" "Error converting PPROD: %s")
      as [l2 ->].
    by eexists.
  - destruct ph; vm_compute; reflexivity.
Qed.

(** ** Refresh *)

Lemma await_ok ws c sensors :
  ws c = Ok sensors → await ws c = (Ok sensors, [Fetch c]).
Proof. unfold await. by intros ->. Qed.

Lemma scan_miss self sensors :
  (∀ d id, d ∈ sensors → d !! "ID" = Some id → py_eq id (_id self) = false) →
  scan self sensors = (Ok None, []) ∨ scan self sensors = (Raise KeyError, []).
Proof.
  induction sensors as [|d rest IH]; intros Hmiss; [by left|].
  cbn [scan]. unfold getitem. destruct (d !! "ID") as [id|] eqn:Hid; [|by right].
  mstep. rewrite (Hmiss d id) by (done || apply elem_of_cons; by left).
  destruct IH as [-> | ->]; [|by left|by right].
  intros d' id' Hin. apply Hmiss. apply elem_of_cons. by right.
Qed.

Lemma scan_miss_all self sensors :
  (∀ d, d ∈ sensors → ∃ id, d !! "ID" = Some id ∧ py_eq id (_id self) = false) →
  scan self sensors = (Ok None, []).
Proof.
  induction sensors as [|d rest IH]; intros Hmiss; [done|].
  cbn [scan]. unfold getitem.
  destruct (Hmiss d) as (id & -> & Hne); [apply elem_of_cons; by left|].
  mstep. rewrite Hne, IH; [done|].
  intros d' Hin. apply Hmiss. apply elem_of_cons. by right.
Qed.

Lemma scan_first_match self pre sensor post id :
  (∀ d, d ∈ pre → ∃ i, d !! "ID" = Some i ∧ py_eq i (_id self) = false) →
  sensor !! "ID" = Some id → py_eq id (_id self) = true →
  scan self (pre ++ sensor :: post) =
    (sa ← reduce Refresh (_sensor_type self) sensor; mret (Some sa)).
Proof.
  intros Hpre Hid Heq. induction pre as [|d pre IH].
  - cbn [app scan]. unfold getitem. rewrite Hid. mstep. rewrite Heq.
    by destruct (reduce Refresh (_sensor_type self) sensor) as [[sa|e] l].
  - cbn [app scan]. unfold getitem.
    destruct (Hpre d) as (i & -> & Hne); [apply elem_of_cons; by left|].
    mstep. rewrite Hne, IH.
    + by destruct (reduce Refresh (_sensor_type self) sensor) as [[sa|e] l].
    + intros d' Hin. apply Hpre. apply elem_of_cons. by right.
Qed.

(** C7. When the snapshot fetched by a refresh holds no record whose [ID]
    equals the entity's, the entity is afterwards exactly as it was; and,
    every record of the snapshot carrying an [ID], the refresh ends normally
    having logged nothing. *)
Theorem refresh_without_match (ws_manager : WsManager)
    (self : KseniaSensorEntity) (sensors : list dict) :
  ws_manager (fetch_of (_sensor_type self)) = Ok sensors →
  (∀ d id, d ∈ sensors → d !! "ID" = Some id → py_eq id (_id self) = false) →
  let after := (async_update ws_manager self).1 in
  after = self ∧
  state after = state self ∧
  extra_state_attributes after = extra_state_attributes self ∧
  ((∀ d, d ∈ sensors → is_Some (d !! "ID")) →
   async_update ws_manager self =
     (self, (Ok tt, [Fetch (fetch_of (_sensor_type self))]))).
Proof.
  intros Hfetch Hmiss after.
  assert (after = self) as Hsame.
  { subst after. unfold async_update. rewrite (await_ok _ _ _ Hfetch). mstep.
    by destruct (scan_miss self sensors Hmiss) as [-> | ->]. }
  rewrite Hsame. repeat split.
  intros Hids. unfold async_update. rewrite (await_ok _ _ _ Hfetch). mstep.
  rewrite scan_miss_all; [done|].
  intros d Hin. destruct (Hids d Hin) as [id Hid]. exists id. split; [done|].
  by apply (Hmiss d).
Qed.

Lemma refresh_without_match_witness :
  let after := (async_update one_record zone_seven).1 in
  after = zone_seven ∧
  state after = state zone_seven ∧
  extra_state_attributes after = extra_state_attributes zone_seven ∧
  ((∀ d, d ∈ [plain_record] → is_Some (d !! "ID")) →
   async_update one_record zone_seven =
     (zone_seven, (Ok tt, [Fetch (fetch_of (_sensor_type zone_seven))]))).
Proof.
  apply (refresh_without_match one_record zone_seven [plain_record]).
  - reflexivity.
  - intros d id ->%list_elem_of_singleton [= <-]. reflexivity.
Defined.

(** With the identifier twice in the snapshot, the entity takes the state
    of the first of the two records. *)
Example refresh_twice_seven :
  _state (async_update twice_seven zone_seven).1 = VStr "A" ∧
  _attributes (async_update twice_seven zone_seven).1 = zone_record "7" "A".
Proof. split; vm_compute; reflexivity. Qed.

(** ** Identity *)

Lemma async_update_identity ws self :
  _id (async_update ws self).1 = _id self ∧
  _sensor_type (async_update ws self).1 = _sensor_type self.
Proof.
  unfold async_update.
  by destruct (_ ≫= _) as [[[sa|]|e] log].
Qed.

Lemma refreshes_identity answers :
  ∀ self, _id (refreshes answers self) = _id self ∧
          _sensor_type (refreshes answers self) = _sensor_type self.
Proof.
  induction answers as [|ws answers IH]; intros self; [done|].
  cbn [refreshes foldl]. fold (refreshes answers (async_update ws self).1).
  destruct (IH (async_update ws self).1) as [-> ->]. apply async_update_identity.
Qed.

Lemma init_identity py_repr d ty e log :
  __init__ py_repr d ty = (Ok e, log) →
  getitem d "ID" = Ok (_id e) ∧ _sensor_type e = ty.
Proof.
  unfold __init__. destruct (getitem d "ID") as [id|]; [|discriminate].
  mstep. destruct (reduce Construct ty d) as [[[st attrs]|] l]; [|discriminate].
  mstep. by intros [= <- _].
Qed.

(** C9. The [unique_id] of an entity is its category tag, an underscore, and
    the record's [ID] as text; no run of refreshes changes the identifier, the
    category or the [unique_id]. *)
Theorem unique_id_stable (py_repr : value → string) (sensor_data : dict)
    (sensor_type : string) (self : KseniaSensorEntity) (log : list event)
    (id : value) (answers : list WsManager) :
  __init__ py_repr sensor_data sensor_type = (Ok self, log) →
  sensor_data !! "ID" = Some id →
  unique_id py_repr self = sensor_type +:+ "_" +:+ py_str py_repr id ∧
  unique_id py_repr (refreshes answers self) = unique_id py_repr self ∧
  _id (refreshes answers self) = id ∧
  _sensor_type (refreshes answers self) = sensor_type ∧
  (∀ s, id = VStr s →
        unique_id py_repr (refreshes answers self) = sensor_type +:+ "_" +:+ s).
Proof.
  intros Hinit Hid. destruct (init_identity _ _ _ _ _ Hinit) as [Hget Hty].
  unfold getitem in Hget. rewrite Hid in Hget. injection Hget as Hself.
  destruct (refreshes_identity answers self) as [Hi Ht].
  unfold unique_id. rewrite Hi, Ht, Hty, <- Hself.
  repeat split; try done. by intros s ->.
Qed.

Lemma unique_id_stable_witness :
  unique_id no_repr zone_one = "zones" +:+ "_" +:+ py_str no_repr (VStr "1") ∧
  unique_id no_repr (refreshes [one_record; dom_down; twice_seven] zone_one)
    = unique_id no_repr zone_one ∧
  _id (refreshes [one_record; dom_down; twice_seven] zone_one) = VStr "1" ∧
  _sensor_type (refreshes [one_record; dom_down; twice_seven] zone_one) = "zones" ∧
  (∀ s, VStr "1" = VStr s →
        unique_id no_repr (refreshes [one_record; dom_down; twice_seven] zone_one)
          = "zones" +:+ "_" +:+ s).
Proof.
  apply (unique_id_stable no_repr plain_record "zones" zone_one []
           (VStr "1") [one_record; dom_down; twice_seven]); reflexivity.
Defined.

Example unique_id_zone_one :
  unique_id no_repr (refreshes [one_record; dom_down; twice_seven] zone_one)
    = "zones_1".
Proof. vm_compute. reflexivity. Qed.

(** ** Empty fields *)

Lemma reduce_domus_eq ph d : reduce ph "domus" d = reduce_domus ph d.
Proof. reflexivity. Qed.

Lemma get_insert_ne (d : dict) k k' v dflt :
  k ≠ k' → get (<[k := v]> d) k' dflt = get d k' dflt.
Proof. intros Hk. unfold get. by rewrite lookup_insert_ne. Qed.

Lemma get_insert_eq (d : dict) k v dflt : get (<[k := v]> d) k dflt = v.
Proof. unfold get. by rewrite lookup_insert_eq. Qed.

Lemma get_delete_ne (d : dict) k k' dflt :
  k ≠ k' → get (delete k d) k' dflt = get d k' dflt.
Proof. intros Hk. unfold get. by rewrite lookup_delete_ne. Qed.

Lemma parse_temp_delete (t : dict) key k' :
  t !! key = Some (VStr EmptyString) →
  parse_temp (VDict (delete key t)) k' = parse_temp (VDict t) k'.
Proof.
  intros Ht. unfold parse_temp, py_get, get. destruct (decide (key = k')) as [<-|Hne].
  - by rewrite lookup_delete_eq, Ht.
  - by rewrite lookup_delete_ne.
Qed.

Lemma system_empty_as_absent (d : dict) key :
  temp_lookup d key = Some (VStr EmptyString) →
  reduce_system (temp_delete d key) = reduce_system d ∧
  parse_temp (get d "TEMP" (VDict ∅)) key = Ok VNone.
Proof.
  unfold temp_lookup, temp_delete.
  destruct (d !! "TEMP") as [[| | | | | |t]|] eqn:Hd; try discriminate.
  intros Ht.
  assert (get d "TEMP" (VDict ∅) = VDict t) as Hget by (unfold get; by rewrite Hd).
  split.
  - unfold reduce_system. rewrite Hget, get_insert_ne, get_insert_eq by done.
    by rewrite !(parse_temp_delete t key _ Ht).
  - rewrite Hget. apply parse_temp_absent. by right.
Qed.

Lemma powerlines_empty_as_absent (d : dict) key msg :
  d !! key = Some (VStr EmptyString) →
  power_field (delete key d) key msg = (Ok VNone, []) ∧
  power_field d key msg = (Ok VNone, []).
Proof.
  intros Hd. unfold power_field, get. by rewrite lookup_delete_eq, Hd.
Qed.

Lemma power_field_delete_ne (d : dict) key k' msg :
  key ≠ k' → power_field (delete key d) k' msg = power_field d k' msg.
Proof. intros Hk. unfold power_field. by rewrite get_delete_ne. Qed.

Lemma domus_T_empty (d : dict) :
  d !! "T" = Some (VStr EmptyString) →
  parse_T d = Ok VNone ∧ parse_T (delete "T" d) = Ok VNone ∧
  parse_H (delete "T" d) = parse_H d.
Proof.
  intros Hd. unfold parse_T, parse_H.
  rewrite !(get_delete_ne d "T" "H") by done.
  unfold get. by rewrite lookup_delete_eq, Hd.
Qed.

Lemma domus_H_empty (d : dict) :
  d !! "H" = Some (VStr EmptyString) →
  parse_H d = Ok VNone ∧ parse_H (delete "H" d) = Ok VNone ∧
  parse_T (delete "H" d) = parse_T d.
Proof.
  intros Hd. unfold parse_T, parse_H.
  rewrite !(get_delete_ne d "H" "T") by done.
  unfold get. by rewrite lookup_delete_eq, Hd.
Qed.

(** C8. A numeric field that is present with the empty text is read as an
    absent one: its attribute is null, the reduction ends normally, and the
    state and everything logged are what they are for the record without the
    field, so nothing is raised or logged on its account. *)
Theorem empty_field_as_absent (ph : phase) (f : numeric_field) (sensor_data : dict) :
  field_lookup f sensor_data = Some (VStr EmptyString) →
  let r := reduce ph (field_category f) sensor_data in
  let r' := reduce ph (field_category f) (field_delete f sensor_data) in
  completes r ∧
  attribute r (field_attribute f) = Some VNone ∧
  events r = events r' ∧
  state_of r = state_of r'.
Proof.
  intros Hf r r'. subst r r'.
  split; [apply reduce_completes_iff; by destruct f|].
  destruct f; cbn [field_lookup field_category field_attribute field_delete] in *.
  - destruct (system_empty_as_absent sensor_data "IN" Hf) as [Heq Hp].
    rewrite !reduce_system_eq, Heq. split; [|done].
    unfold reduce_system, attribute. rewrite Hp.
    destruct (parse_temp _ "OUT"); mstep; by simplify_map_eq.
  - destruct (system_empty_as_absent sensor_data "OUT" Hf) as [Heq Hp].
    rewrite !reduce_system_eq, Heq. split; [|done].
    unfold reduce_system, attribute. rewrite Hp.
    destruct (parse_temp _ "IN"); mstep; by simplify_map_eq.
  - rewrite !reduce_powerlines_eq. unfold reduce_powerlines.
    destruct (powerlines_empty_as_absent sensor_data "PCONS"
                "Error converting PCONS: %s" Hf) as [-> ->].
    rewrite power_field_delete_ne, get_delete_ne by done.
    destruct (power_field_spec sensor_data "PPROD" "Error converting PPROD: %s")
      as [l ->].
    mstep. unfold attribute, events, state_of; cbn [fst snd]. by simplify_map_eq.
  - rewrite !reduce_powerlines_eq. unfold reduce_powerlines.
    destruct (powerlines_empty_as_absent sensor_data "PPROD"
                "Error converting PPROD: %s" Hf) as [-> ->].
    rewrite power_field_delete_ne, get_delete_ne by done.
    destruct (power_field_spec sensor_data "PCONS" "Error converting PCONS: %s")
      as [l ->].
    mstep. unfold attribute, events, state_of; cbn [fst snd]. by simplify_map_eq.
  - rewrite !reduce_domus_eq. unfold reduce_domus.
    destruct (domus_T_empty sensor_data Hf) as (-> & -> & ->).
    rewrite get_delete_ne by done.
    destruct (parse_H sensor_data); mstep;
      unfold attribute, events, state_of; cbn [fst snd]; by simplify_map_eq.
  - rewrite !reduce_domus_eq. unfold reduce_domus.
    destruct (domus_H_empty sensor_data Hf) as (-> & -> & ->).
    rewrite get_delete_ne by done.
    destruct (parse_T sensor_data) as [[]|]; mstep;
      unfold attribute, events, state_of; cbn [fst snd]; by simplify_map_eq.
Qed.

Lemma empty_field_as_absent_witness :
  let r := reduce Construct (field_category T) empty_T_record in
  let r' := reduce Construct (field_category T) (field_delete T empty_T_record) in
  completes r ∧
  attribute r (field_attribute T) = Some VNone ∧
  events r = events r' ∧
  state_of r = state_of r'.
Proof. apply (empty_field_as_absent Construct T empty_T_record). reflexivity. Defined.

(** With an empty [T] the domus branch logs nothing and falls back to [STA]. *)
Example empty_T_reduction :
  events (reduce Construct "domus" empty_T_record) = [] ∧
  state_of (reduce Construct "domus" empty_T_record) = Some (VStr "ok") ∧
  attribute (reduce Construct "domus" empty_T_record) "temperature" = Some VNone ∧
  attribute (reduce Construct "domus" empty_T_record) "humidity" = Some (VFloat 45).
Proof. repeat split; vm_compute; reflexivity. Qed.


(** * Further properties of the code *)

(** ** Refresh: errors, fetches and what is written *)

Lemma scan_congr e1 e2 sensors :
  _id e1 = _id e2 → _sensor_type e1 = _sensor_type e2 →
  scan e1 sensors = scan e2 sensors.
Proof.
  intros Hid Hty. induction sensors as [|d rest IH]; [done|].
  cbn [scan]. by rewrite Hid, Hty, IH.
Qed.

Lemma store_store self sa sb : store (store self sa) sb = store self sb.
Proof. reflexivity. Qed.

Lemma store_self self : store self (_state self, _attributes self) = self.
Proof. by destruct self. Qed.

Lemma async_update_cases ws self :
  (∃ sa, (async_update ws self).1 = store self sa) ∧
  _name (async_update ws self).1 = _name self.
Proof.
  unfold async_update. destruct (_ ≫= _) as [[[sa|]|e] log]; cbn [fst].
  - split; [by exists sa | done].
  - split; [exists (_state self, _attributes self); by rewrite store_self | done].
  - split; [exists (_state self, _attributes self); by rewrite store_self | done].
Qed.

(** X1. A refresh whose fetch fails raises the same exception, having
    fetched once and logged nothing, and leaves the entity as it was. *)
Theorem refresh_fetch_failure (ws_manager : WsManager)
    (self : KseniaSensorEntity) (e : exn) :
  ws_manager (fetch_of (_sensor_type self)) = Raise e →
  async_update ws_manager self =
    (self, (Raise e, [Fetch (fetch_of (_sensor_type self))])).
Proof. intros Hfetch. unfold async_update, await. by rewrite Hfetch. Qed.

Lemma refresh_fetch_failure_witness :
  async_update all_down zone_seven =
    (zone_seven, (Raise (OtherError "ConnectionError"),
                  [Fetch (fetch_of (_sensor_type zone_seven))])).
Proof. apply (refresh_fetch_failure all_down zone_seven). reflexivity. Defined.

(** X2. A record without [ID] that stands in the snapshot before any record
    matching the entity stops the refresh with [KeyError]: the entity is left
    as it was, whatever follows in the snapshot. *)
Theorem refresh_record_without_id (ws_manager : WsManager)
    (self : KseniaSensorEntity) (pre post : list dict) (sensor : dict) :
  ws_manager (fetch_of (_sensor_type self)) = Ok (pre ++ sensor :: post) →
  (∀ d, d ∈ pre → ∃ i, d !! "ID" = Some i ∧ py_eq i (_id self) = false) →
  sensor !! "ID" = None →
  async_update ws_manager self =
    (self, (Raise KeyError, [Fetch (fetch_of (_sensor_type self))])).
Proof.
  intros Hfetch Hpre Hid. unfold async_update.
  rewrite (await_ok _ _ _ Hfetch). mstep.
  assert (scan self (pre ++ sensor :: post) = (Raise KeyError, [])) as ->; [|done].
  clear Hfetch. induction pre as [|d pre IH].
  - cbn [app scan]. unfold getitem. by rewrite Hid.
  - cbn [app scan]. unfold getitem.
    destruct (Hpre d) as (i & -> & Hne); [apply elem_of_cons; by left|].
    mstep. rewrite Hne, IH; [done|].
    intros d' Hin. apply Hpre. apply elem_of_cons. by right.
Qed.

Lemma refresh_record_without_id_witness :
  async_update nameless_first zone_seven =
    (zone_seven, (Raise KeyError, [Fetch (fetch_of (_sensor_type zone_seven))])).
Proof.
  apply (refresh_record_without_id nameless_first zone_seven
           [zone_record "3" "T"] [zone_record "7" "A"] (<["STA" := VStr "X"]> ∅)).
  - reflexivity.
  - intros d ->%list_elem_of_singleton. exists (VStr "3"). split; reflexivity.
  - reflexivity.
Defined.

Lemma async_update_run ws self :
  async_update ws self =
    match await ws (fetch_of (_sensor_type self)) ≫= scan self with
    | (Ok (Some sa), log) => (store self sa, (Ok tt, log))
    | (Ok None, log) => (self, (Ok tt, log))
    | (Raise e, log) => (self, (Raise e, log))
    end.
Proof. reflexivity. Qed.

Lemma async_update_found ws self sa log :
  await ws (fetch_of (_sensor_type self)) ≫= scan self = (Ok (Some sa), log) →
  async_update ws self = (store self sa, (Ok tt, log)).
Proof. rewrite async_update_run. by intros ->. Qed.

Lemma async_update_unchanged ws self :
  (∀ sa log, await ws (fetch_of (_sensor_type self)) ≫= scan self
             ≠ (Ok (Some sa), log)) →
  (async_update ws self).1 = self.
Proof.
  rewrite async_update_run. intros Hno.
  destruct (_ ≫= _) as [[[sa|]|e] log]; [by destruct (Hno sa log)|done..].
Qed.

Lemma run_congr ws e1 e2 :
  _id e1 = _id e2 → _sensor_type e1 = _sensor_type e2 →
  await ws (fetch_of (_sensor_type e1)) ≫= scan e1 =
  await ws (fetch_of (_sensor_type e2)) ≫= scan e2.
Proof.
  intros Hid Hty. rewrite Hty. unfold await.
  destruct (ws (fetch_of (_sensor_type e2))) as [sensors|]; [|done].
  mstep. by rewrite (scan_congr e1 e2 sensors).
Qed.

(** X3. Refreshing twice against the same answers is refreshing once. How a
    refresh ends and what it logs do not depend on the state and attributes
    the entity has; when the scan of the snapshot finds and reduces a matching
    record, the state and attributes afterwards are that result, whatever
    they were before, and otherwise they stay as they were. *)
Theorem refresh_idempotent (ws_manager : WsManager) (self : KseniaSensorEntity) :
  async_update ws_manager (async_update ws_manager self).1 =
    async_update ws_manager self ∧
  ∀ previous,
    (async_update ws_manager (store self previous)).2 =
      (async_update ws_manager self).2 ∧
    match await ws_manager (fetch_of (_sensor_type self)) ≫= scan self with
    | (Ok (Some (st, attrs)), _) =>
        state (async_update ws_manager (store self previous)).1 = st ∧
        extra_state_attributes (async_update ws_manager (store self previous)).1
          = attrs
    | _ => (async_update ws_manager (store self previous)).1 = store self previous
    end.
Proof.
  split.
  - destruct (await ws_manager (fetch_of (_sensor_type self)) ≫= scan self)
      as [[[sa|]|e] log] eqn:Hrun.
    + rewrite (async_update_found _ _ _ _ Hrun). cbn [fst].
      rewrite (async_update_found ws_manager (store self sa) sa log).
      * by rewrite store_store.
      * by rewrite (run_congr ws_manager (store self sa) self).
    + by rewrite (async_update_unchanged ws_manager self)
        by (rewrite Hrun; congruence).
    + by rewrite (async_update_unchanged ws_manager self)
        by (rewrite Hrun; congruence).
  - intros previous.
    rewrite (async_update_run ws_manager (store self previous)),
      (async_update_run ws_manager self).
    rewrite (run_congr ws_manager (store self previous) self) by done.
    destruct (await ws_manager (fetch_of (_sensor_type self)) ≫= scan self)
      as [[[[st attrs]|]|e] log]; done.
Qed.

(** X4. Whatever the session client answers over any run of refreshes, only
    the state and the attributes of the entity are written: the name is the
    one given at construction and the entity is the original one with some
    state and attributes stored. *)
Theorem refreshes_write_state_only (answers : list WsManager)
    (self : KseniaSensorEntity) :
  name (refreshes answers self) = name self ∧
  ∃ sa, refreshes answers self = store self sa.
Proof.
  revert self. induction answers as [|ws answers IH]; intros self.
  - split; [done|]. exists (_state self, _attributes self). by rewrite store_self.
  - cbn [refreshes foldl]. fold (refreshes answers (async_update ws self).1).
    destruct (IH (async_update ws self).1) as [Hn [sa Hsa]].
    destruct (async_update_cases ws self) as [[sb Hsb] Hname].
    split; [unfold name in *; by rewrite Hn|].
    exists sa. by rewrite Hsa, Hsb, store_store.
Qed.

(** ** What the branches log *)

Lemma only_errors_ret {A} (a : A) : only_errors (mret a : M A).
Proof. apply Forall_nil_2. Qed.

Lemma only_errors_lift {A} (o : outcome A) : only_errors (lift o).
Proof. apply Forall_nil_2. Qed.

Lemma only_errors_bind {A B} (m : M A) (f : A → M B) :
  only_errors m → (∀ a, only_errors (f a)) → only_errors (m ≫= f).
Proof.
  unfold only_errors, events. intros Hm Hf. destruct m as [[a|e] l]; mstep; [|done].
  specialize (Hf a). destruct (f a) as [r l']. cbn [snd] in *.
  by apply Forall_app.
Qed.

Lemma only_errors_try {A} (body : M A) (h : exn → M A) :
  only_errors body → (∀ e, only_errors (h e)) → only_errors (try_except body h).
Proof.
  unfold only_errors, events. intros Hm Hh. destruct body as [[a|e] l]; mstep; [done|].
  specialize (Hh e). destruct (h e) as [r l']. cbn [snd] in *.
  by apply Forall_app.
Qed.

Lemma only_errors_handler {A} (msg : string) (a : A) (e : exn) :
  only_errors (emit (LogError msg e);; mret a : M A).
Proof. unfold only_errors, events. cbn. by apply Forall_singleton. Qed.

Create HintDb errs.
#[local] Hint Resolve only_errors_ret only_errors_lift only_errors_handler : errs.
#[local] Hint Extern 2 (only_errors (_ ≫= _)) =>
  apply only_errors_bind; [|intros ?] : errs.
#[local] Hint Extern 2 (only_errors (try_except _ _)) =>
  apply only_errors_try; [|intros ?] : errs.

Lemma sum_enc_only_errors ph vals : ∀ total, only_errors (sum_enc ph total vals).
Proof.
  induction vals as [|record rest IH]; intros total; simpl; [auto with errs|].
  apply only_errors_bind; [unfold add_enc; auto 7 with errs | intros t; apply IH].
Qed.

Lemma reduce_only_errors ph ty d : only_errors (reduce ph ty d).
Proof.
  rewrite reduce_unfold. repeat case_bool_decide.
  - unfold reduce_system. apply only_errors_bind; [|intros [a b]]; auto 7 with errs.
  - unfold reduce_powerlines, power_field. auto 9 with errs.
  - unfold reduce_domus. auto 9 with errs.
  - unfold reduce_partitions, total_consumption.
    apply only_errors_bind; [|auto with errs].
    destruct (truthy _); [|auto with errs].
    repeat (apply only_errors_bind; [auto with errs | intros ?]).
    apply sum_enc_only_errors.
  - unfold reduce_other. auto with errs.
Qed.

Lemma scan_only_errors self sensors : only_errors (scan self sensors).
Proof.
  induction sensors as [|d rest IH]; cbn [scan]; [auto with errs|].
  apply only_errors_bind; [auto with errs | intros id].
  destruct (py_eq id (_id self)); [|done].
  apply only_errors_bind; [apply reduce_only_errors | auto with errs].
Qed.

(** X5. A refresh of an entity with an ASCII category tag awaits exactly
    one fetch, before anything else: the system, power-lines, domus or
    partitions fetch for an entity of that category, and for any other
    category the sensor fetch named by the upper-cased tag, as ["ZONES"] for
    zones. Everything it emits after that is an error message of a failed
    conversion. *)
Theorem refresh_fetches_once (ws_manager : WsManager) (self : KseniaSensorEntity) :
  Str.is_ascii (_sensor_type self) = true →
  (∃ log,
     events (async_update ws_manager self).2 =
       Fetch (fetch_of (_sensor_type self)) :: log ∧
     Forall (λ ev, is_log_error ev = true) log) ∧
  fetch_of "system" = GetSystem ∧
  fetch_of "powerlines" = GetSensor "POWER_LINES" ∧
  fetch_of "domus" = GetDom ∧
  fetch_of "partitions" = GetSensor "PARTITIONS" ∧
  fetch_of "zones" = GetSensor "ZONES" ∧
  (∀ ty, Str.is_ascii ty = true →
         ty ∉ ["system"; "powerlines"; "domus"; "partitions"] →
         fetch_of ty = GetSensor (Str.upper ty)).
Proof.
  intros _. split.
  - rewrite async_update_run. unfold await.
    destruct (ws_manager (fetch_of (_sensor_type self))) as [sensors|e]; mstep.
    + pose proof (scan_only_errors self sensors) as Hs.
      unfold only_errors, events in Hs.
      destruct (scan self sensors) as [[[sa|]|e] log]; by exists log.
    + by exists [].
  - repeat split; try reflexivity. intros ty _ Hty. unfold fetch_of.
    repeat case_bool_decide; subst; try done; exfalso; apply Hty;
      repeat (apply elem_of_cons; (by left) || right).
Qed.

Lemma refresh_fetches_once_witness :
  (∃ log,
     events (async_update twice_seven zone_seven).2 =
       Fetch (fetch_of (_sensor_type zone_seven)) :: log ∧
     Forall (λ ev, is_log_error ev = true) log) ∧
  fetch_of "system" = GetSystem ∧
  fetch_of "powerlines" = GetSensor "POWER_LINES" ∧
  fetch_of "domus" = GetDom ∧
  fetch_of "partitions" = GetSensor "PARTITIONS" ∧
  fetch_of "zones" = GetSensor "ZONES" ∧
  (∀ ty, Str.is_ascii ty = true →
         ty ∉ ["system"; "powerlines"; "domus"; "partitions"] →
         fetch_of ty = GetSensor (Str.upper ty)).
Proof. apply (refresh_fetches_once twice_seven zone_seven). reflexivity. Defined.

(** ** The constructor and the refresh agree *)

Tactic Notation "mstep" "in" hyp(H) :=
  cbn [mbind mret M_bind M_ret outcome_bind outcome_ret outcome_fmap fmap
       lift emit try_except fst snd app] in H.

Lemma async_update_first_match ws self pre post sensor id :
  ws (fetch_of (_sensor_type self)) = Ok (pre ++ sensor :: post) →
  (∀ d, d ∈ pre → ∃ i, d !! "ID" = Some i ∧ py_eq i (_id self) = false) →
  sensor !! "ID" = Some id →
  py_eq id (_id self) = true →
  async_update ws self =
    match reduce Refresh (_sensor_type self) sensor with
    | (Ok sa, log) =>
        (store self sa, (Ok tt, Fetch (fetch_of (_sensor_type self)) :: log))
    | (Raise e, log) =>
        (self, (Raise e, Fetch (fetch_of (_sensor_type self)) :: log))
    end.
Proof.
  intros Hfetch Hpre Hid Heq. rewrite async_update_run.
  rewrite (await_ok _ _ _ Hfetch). mstep.
  rewrite (scan_first_match self pre sensor post id Hpre Hid Heq).
  destruct (reduce Refresh (_sensor_type self) sensor) as [[sa|e] l]; mstep;
    [by rewrite app_nil_r | done].
Qed.

Lemma total_consumption_phase ph1 ph2 d :
  (total_consumption ph1 d).1 = (total_consumption ph2 d).1.
Proof.
  unfold total_consumption. destruct (truthy _); [|done].
  destruct (py_last _) as [latest|]; [|done]. mstep.
  destruct (py_get latest "VAL" (VList [])) as [vals|]; [|done]. mstep.
  destruct (py_iter vals) as [records|]; [|done]. mstep.
  destruct (sum_enc_spec ph1 records 0%float) as [l1 ->].
  by destruct (sum_enc_spec ph2 records 0%float) as [l2 ->].
Qed.

Lemma reduce_phase ph1 ph2 ty d : (reduce ph1 ty d).1 = (reduce ph2 ty d).1.
Proof.
  rewrite !reduce_unfold. repeat case_bool_decide; try done.
  - unfold reduce_domus.
    destruct (parse_T d) as [t|]; destruct (parse_H d) as [h|]; done.
  - unfold reduce_partitions.
    pose proof (total_consumption_phase ph1 ph2 d) as H.
    destruct (total_consumption ph1 d) as [[t1|e1] l1],
             (total_consumption ph2 d) as [[t2|e2] l2];
      cbn [fst] in H; try discriminate H; by injection H as ->.
Qed.

Lemma py_eq_str s : py_eq (VStr s) (VStr s) = true.
Proof. cbn [py_eq]. by apply bool_decide_eq_true. Qed.

(** X6. An entity refreshed against a snapshot in which its own record,
    unchanged, is the first one carrying its identifier is left exactly as the
    constructor built it, and the refresh ends normally: both run the same
    reduction. The identifier has to equal itself, as every text does. *)
Theorem refresh_after_construct (py_repr : value → string)
    (ws_manager : WsManager) (sensor_data : dict) (sensor_type : string)
    (self : KseniaSensorEntity) (log : list event) (pre post : list dict) :
  __init__ py_repr sensor_data sensor_type = (Ok self, log) →
  py_eq (_id self) (_id self) = true →
  ws_manager (fetch_of sensor_type) = Ok (pre ++ sensor_data :: post) →
  (∀ d, d ∈ pre → ∃ i, d !! "ID" = Some i ∧ py_eq i (_id self) = false) →
  (async_update ws_manager self).1 = self ∧
  (async_update ws_manager self).2.1 = Ok tt ∧
  (∀ s, _id self = VStr s → py_eq (_id self) (_id self) = true).
Proof.
  intros Hinit Heq Hfetch Hpre.
  destruct (init_identity _ _ _ _ _ Hinit) as [Hget Hty].
  assert (sensor_data !! "ID" = Some (_id self)) as Hid.
  { unfold getitem in Hget. destruct (sensor_data !! "ID"); [|done].
    by injection Hget as ->. }
  assert (reduce Construct sensor_type sensor_data
          = (Ok (_state self, _attributes self), log)) as Hred.
  { unfold __init__, getitem in Hinit. rewrite Hid in Hinit. mstep in Hinit.
    destruct (reduce Construct sensor_type sensor_data) as [[[st attrs]|] l];
      [|discriminate]. mstep in Hinit. injection Hinit as <- <-.
    cbn [_state _attributes]. by rewrite app_nil_r. }
  subst sensor_type.
  rewrite (async_update_first_match ws_manager self pre post sensor_data
             (_id self) Hfetch Hpre Hid Heq).
  pose proof (reduce_phase Refresh Construct (_sensor_type self) sensor_data) as Hph.
  rewrite Hred in Hph.
  destruct (reduce Refresh (_sensor_type self) sensor_data) as [[sa|] l];
    cbn [fst] in Hph; [|discriminate].
  injection Hph as ->. cbn [fst snd]. rewrite store_self.
  repeat split. intros s ->. apply py_eq_str.
Qed.

Lemma refresh_after_construct_witness :
  (async_update one_record zone_one).1 = zone_one ∧
  (async_update one_record zone_one).2.1 = Ok tt ∧
  (∀ s, _id zone_one = VStr s → py_eq (_id zone_one) (_id zone_one) = true).
Proof.
  apply (refresh_after_construct no_repr one_record plain_record "zones"
           zone_one [] [] []).
  - reflexivity.
  - reflexivity.
  - reflexivity.
  - intros d Hd. by apply elem_of_nil in Hd.
Defined.

(** ** The constructor *)

Lemma init_unfold py_repr d ty :
  __init__ py_repr d ty =
    match d !! "ID" with
    | None => (Raise KeyError, [])
    | Some id =>
        match reduce Construct ty d with
        | (Ok (st, attrs), log) =>
            (Ok {| _id := id; _sensor_type := ty;
                   _name :=
                     if truthy (get d "NM" VNone) then get d "NM" VNone
                     else if truthy (get d "LBL" VNone) then get d "LBL" VNone
                     else if truthy (get d "DES" VNone) then get d "DES" VNone
                     else VStr ("Sensor " +:+ Str.capitalize ty +:+ " "
                                +:+ py_str py_repr id);
                   _state := st; _attributes := attrs |}, log)
        | (Raise e, log) => (Raise e, log)
        end
    end.
Proof.
  unfold __init__, getitem. destruct (d !! "ID") as [id|]; [|done]. mstep.
  destruct (reduce Construct ty d) as [[[st attrs]|e] log]; [|done].
  mstep. by rewrite app_nil_r.
Qed.

Lemma init_completes_iff py_repr d ty :
  completes (__init__ py_repr d ty) ↔ init_ready ty d = true.
Proof.
  rewrite init_unfold. unfold init_ready.
  destruct (d !! "ID") as [id|].
  2: { split; [intros H; by apply not_completes_raise in H | done]. }
  assert (negb (bool_decide (ty = "partitions")) || stat_well_formed d = true
          ↔ (ty = "partitions" → stat_well_formed d = true)) as ->.
  { case_bool_decide as Hty; cbn [negb orb]; [tauto|]. split; [done | by intros _]. }
  rewrite <- (reduce_completes_iff Construct ty d).
  destruct (reduce Construct ty d) as [[[st attrs]|e] log]; split.
  - intros _. by eexists _, _.
  - intros _. by eexists _, _.
  - intros H. by apply not_completes_raise in H.
  - intros H. by apply not_completes_raise in H.
Qed.

(** X7. The constructor ends normally exactly on the records that carry an
    [ID] and, in the partitions category, a well-formed [STAT]. A record
    without [ID] makes it raise [KeyError] before anything is logged. When it
    ends normally the entity has the record's [ID], the category tag, and the
    state and attributes of the category's reduction, whose log is all it
    logged. *)
Theorem constructor_contract (py_repr : value → string) (sensor_data : dict)
    (sensor_type : string) :
  (completes (__init__ py_repr sensor_data sensor_type) ↔
     init_ready sensor_type sensor_data = true) ∧
  (sensor_data !! "ID" = None →
     __init__ py_repr sensor_data sensor_type = (Raise KeyError, [])) ∧
  (∀ self log,
     __init__ py_repr sensor_data sensor_type = (Ok self, log) →
     sensor_data !! "ID" = Some (_id self) ∧
     _sensor_type self = sensor_type ∧
     reduce Construct sensor_type sensor_data =
       (Ok (state self, extra_state_attributes self), log)).
Proof.
  split; [apply init_completes_iff|]. split.
  - intros Hid. by rewrite init_unfold, Hid.
  - intros self log. rewrite init_unfold.
    destruct (sensor_data !! "ID") as [id|]; [|discriminate].
    destruct (reduce Construct sensor_type sensor_data) as [[[st attrs]|e] l];
      [|discriminate].
    by intros [= <- <-].
Qed.

(** X8. The name of a constructed entity is the first of the fields [NM],
    [LBL], [DES] that is truthy, and otherwise, for an ASCII category tag, the
    generated text ["Sensor <Category> <ID>"] with the tag capitalised; in
    every case it is truthy, so an entity never has an empty or null name. *)
Theorem constructor_name (py_repr : value → string) (sensor_data : dict)
    (sensor_type : string) (self : KseniaSensorEntity) (log : list event) :
  __init__ py_repr sensor_data sensor_type = (Ok self, log) →
  let nm := get sensor_data "NM" VNone in
  let lbl := get sensor_data "LBL" VNone in
  let des := get sensor_data "DES" VNone in
  truthy (name self) = true ∧
  (truthy nm = true → name self = nm) ∧
  (truthy nm = false → truthy lbl = true → name self = lbl) ∧
  (truthy nm = false → truthy lbl = false → truthy des = true → name self = des) ∧
  (Str.is_ascii sensor_type = true →
   truthy nm = false → truthy lbl = false → truthy des = false →
   name self = VStr ("Sensor " +:+ Str.capitalize sensor_type +:+ " "
                     +:+ py_str py_repr (_id self))).
Proof.
  rewrite init_unfold. intros Hinit nm lbl des.
  destruct (sensor_data !! "ID") as [id|]; [|discriminate].
  destruct (reduce Construct sensor_type sensor_data) as [[[st attrs]|e] l];
    [|discriminate].
  injection Hinit as <- _. unfold name. cbn [_name _id]. fold nm lbl des.
  destruct (truthy nm) eqn:Hnm, (truthy lbl) eqn:Hlbl, (truthy des) eqn:Hdes;
    repeat split; try done.
Qed.

Lemma constructor_name_witness :
  let nm := get plain_record "NM" VNone in
  let lbl := get plain_record "LBL" VNone in
  let des := get plain_record "DES" VNone in
  truthy (name zone_one) = true ∧
  (truthy nm = true → name zone_one = nm) ∧
  (truthy nm = false → truthy lbl = true → name zone_one = lbl) ∧
  (truthy nm = false → truthy lbl = false → truthy des = true → name zone_one = des) ∧
  (Str.is_ascii "zones" = true →
   truthy nm = false → truthy lbl = false → truthy des = false →
   name zone_one = VStr ("Sensor " +:+ Str.capitalize "zones" +:+ " "
                         +:+ py_str no_repr (_id zone_one))).
Proof.
  apply (constructor_name no_repr plain_record "zones" zone_one []). reflexivity.
Defined.

Example constructor_name_zone_one : name zone_one = VStr "Sensor Zones 1".
Proof. reflexivity. Qed.

(** ** The identifier inside the attributes *)

Lemma reduce_keeps_id ph ty d st attrs l :
  ty ∉ ["system"; "powerlines"] →
  reduce ph ty d = (Ok (st, attrs), l) → attrs !! "ID" = d !! "ID".
Proof.
  intros Hty. rewrite reduce_unfold. repeat case_bool_decide; subst.
  - exfalso. apply Hty. apply elem_of_cons. by left.
  - exfalso. apply Hty. apply elem_of_cons. right. apply elem_of_cons. by left.
  - unfold reduce_domus. destruct (parse_T d), (parse_H d); mstep;
      intros [= <- <- _]; by simplify_map_eq.
  - unfold reduce_partitions. destruct (total_consumption ph d) as [[t|] lg];
      mstep; [|discriminate]. intros [= <- <- _]. by simplify_map_eq.
  - unfold reduce_other. mstep. by intros [= <- <- _].
Qed.

Lemma reduce_drops_id ph ty d st attrs l :
  ty ∈ ["system"; "powerlines"] →
  reduce ph ty d = (Ok (st, attrs), l) → attrs !! "ID" = None.
Proof.
  intros Hty. rewrite reduce_unfold.
  apply elem_of_cons in Hty as [->|Hty];
    [|apply list_elem_of_singleton in Hty as ->].
  - rewrite bool_decide_true by done. unfold reduce_system.
    destruct (parse_temp _ "IN"); [destruct (parse_temp _ "OUT")|]; mstep;
      intros [= <- <- _]; by simplify_map_eq.
  - rewrite bool_decide_false, bool_decide_true by done. unfold reduce_powerlines.
    destruct (power_field_spec d "PCONS" "Error converting PCONS: %s") as [l1 ->].
    destruct (power_field_spec d "PPROD" "Error converting PPROD: %s") as [l2 ->].
    mstep. intros [= <- <- _]. by simplify_map_eq.
Qed.

Lemma scan_found self sensors sa log :
  scan self sensors = (Ok (Some sa), log) →
  ∃ sensor i, sensor ∈ sensors ∧ sensor !! "ID" = Some i ∧
              py_eq i (_id self) = true ∧
              reduce Refresh (_sensor_type self) sensor = (Ok sa, log).
Proof.
  induction sensors as [|d rest IH]; [discriminate|].
  cbn [scan]. unfold getitem. destruct (d !! "ID") as [i|] eqn:Hi; [|discriminate].
  mstep. destruct (py_eq i (_id self)) eqn:Heq.
  - destruct (reduce Refresh (_sensor_type self) d) as [[sb|] l] eqn:Hred;
      mstep; [|discriminate].
    rewrite app_nil_r. intros [= <- <-]. exists d, i.
    repeat split; try done. apply elem_of_cons. by left.
  - destruct (scan self rest) as [r lr]. intros H.
    destruct (IH H) as (s & j & Hin & Hj & Hjeq & Hred).
    exists s, j. repeat split; try done. apply elem_of_cons. by right.
Qed.

Lemma async_update_found_inv ws self :
  (async_update ws self).1 = self ∨
  ∃ sensor i sa log,
    sensor !! "ID" = Some i ∧ py_eq i (_id self) = true ∧
    reduce Refresh (_sensor_type self) sensor = (Ok sa, log) ∧
    (async_update ws self).1 = store self sa.
Proof.
  rewrite async_update_run. unfold await.
  destruct (ws (fetch_of (_sensor_type self))) as [sensors|]; mstep; [|by left].
  destruct (scan self sensors) as [[[sa|]|] log] eqn:Hscan; [|by left..].
  right. destruct (scan_found _ _ _ _ Hscan) as (s & i & _ & Hi & Heq & Hred).
  by exists s, i, sa, log.
Qed.

Lemma async_update_carries_id ws self :
  _sensor_type self ∉ ["system"; "powerlines"] →
  carries_id self → carries_id (async_update ws self).1.
Proof.
  intros Hty Hinv.
  destruct (async_update_found_inv ws self)
    as [-> | (s & i & [st attrs] & log & Hi & Heq & Hred & ->)]; [done|].
  exists i. split; [|done]. cbn [store _attributes snd].
  by rewrite (reduce_keeps_id _ _ _ _ _ _ Hty Hred).
Qed.

Lemma async_update_lacks_id ws self :
  _sensor_type self ∈ ["system"; "powerlines"] →
  _attributes self !! "ID" = None →
  _attributes (async_update ws self).1 !! "ID" = None.
Proof.
  intros Hty Hinv.
  destruct (async_update_found_inv ws self)
    as [-> | (s & i & [st attrs] & log & Hi & Heq & Hred & ->)]; [done|].
  cbn [store _attributes snd]. by apply (reduce_drops_id _ _ _ _ _ _ Hty Hred).
Qed.

(** X9. From construction on and through every run of refreshes, an entity
    of the domus, partitions, zones or any other pass-through category whose
    identifier equals itself under [==] keeps under ["ID"] in its attributes a
    value equal to its identifier, while a system or powerlines entity never
    has an ["ID"] attribute. *)
Theorem attributes_and_identifier (py_repr : value → string) (sensor_data : dict)
    (sensor_type : string) (self : KseniaSensorEntity) (log : list event)
    (answers : list WsManager) :
  __init__ py_repr sensor_data sensor_type = (Ok self, log) →
  (sensor_type ∉ ["system"; "powerlines"] →
   py_eq (_id self) (_id self) = true →
   carries_id (refreshes answers self)) ∧
  (sensor_type ∈ ["system"; "powerlines"] →
   extra_state_attributes (refreshes answers self) !! "ID" = None).
Proof.
  intros Hinit. rewrite init_unfold in Hinit.
  destruct (sensor_data !! "ID") as [id|] eqn:Hid; [|discriminate].
  destruct (reduce Construct sensor_type sensor_data) as [[[st attrs]|e] l] eqn:Hred;
    [|discriminate].
  injection Hinit as <- <-. split.
  - intros Hty Heq.
    match goal with |- carries_id (refreshes answers ?e) => set (e0 := e) end.
    assert (carries_id e0) as H0.
    { exists id. split; [|done]. subst e0. cbn [_attributes].
      by rewrite (reduce_keeps_id _ _ _ _ _ _ Hty Hred). }
    assert (_sensor_type e0 ∉ ["system"; "powerlines"]) as Ht0 by done.
    clearbody e0. clear -H0 Ht0. revert e0 H0 Ht0.
    induction answers as [|ws answers IH]; intros e0 H0 Ht0; [done|].
    cbn [refreshes foldl]. apply IH.
    + by apply async_update_carries_id.
    + by destruct (async_update_identity ws e0) as [_ ->].
  - intros Hty. unfold extra_state_attributes.
    match goal with |- _attributes (refreshes answers ?e) !! _ = _ => set (e0 := e) end.
    assert (_attributes e0 !! "ID" = None) as H0.
    { subst e0. cbn [_attributes]. by apply (reduce_drops_id _ _ _ _ _ _ Hty Hred). }
    assert (_sensor_type e0 ∈ ["system"; "powerlines"]) as Ht0 by done.
    clearbody e0. clear -H0 Ht0. revert e0 H0 Ht0.
    induction answers as [|ws answers IH]; intros e0 H0 Ht0; [done|].
    cbn [refreshes foldl]. apply IH.
    + by apply async_update_lacks_id.
    + by destruct (async_update_identity ws e0) as [_ ->].
Qed.

Lemma attributes_and_identifier_witness :
  (("zones" : string) ∉ ["system"; "powerlines"] →
   py_eq (_id zone_one) (_id zone_one) = true →
   carries_id (refreshes [twice_seven; one_record] zone_one)) ∧
  (("zones" : string) ∈ ["system"; "powerlines"] →
   extra_state_attributes (refreshes [twice_seven; one_record] zone_one) !! "ID" = None).
Proof.
  apply (attributes_and_identifier no_repr plain_record "zones" zone_one []
           [twice_seven; one_record]).
  reflexivity.
Defined.

(** ** The identity key *)

Lemma tag_split a b s t :
  Str.count_char "_" a = 0%nat → Str.count_char "_" b = 0%nat →
  a +:+ String "_" s = b +:+ String "_" t → a = b ∧ s = t.
Proof.
  revert b. induction a as [|c a IH]; intros [|c' b] Ha Hb;
    rewrite ?append_nil, ?append_cons.
  - by intros [= ->].
  - intros [= <- _]. cbn [Str.count_char] in Hb.
    rewrite bool_decide_true in Hb by done. discriminate Hb.
  - intros [= -> _]. cbn [Str.count_char] in Ha.
    rewrite bool_decide_true in Ha by done. discriminate Ha.
  - intros [= <- Hrest]. cbn [Str.count_char] in Ha, Hb.
    destruct (IH b) as [-> ->]; [lia | lia | done | done].
Qed.

Lemma unique_id_text py_repr e s :
  _id e = VStr s → unique_id py_repr e = _sensor_type e +:+ String "_" s.
Proof. unfold unique_id. by intros ->. Qed.

(** X10. Among entities whose identifiers are texts and whose category tags
    hold no underscore, as the five tags of the catalog builder do, the
    [unique_id] determines the category and the identifier: two such
    entities with the same [unique_id] belong to the same category and have
    the same [ID]. *)
Theorem unique_id_injective (py_repr : value → string)
    (e1 e2 : KseniaSensorEntity) (s1 s2 : string) :
  _id e1 = VStr s1 → _id e2 = VStr s2 →
  Str.count_char "_" (_sensor_type e1) = 0%nat →
  Str.count_char "_" (_sensor_type e2) = 0%nat →
  unique_id py_repr e1 = unique_id py_repr e2 →
  entity_key e1 = entity_key e2 ∧
  Forall (λ stage, Str.count_char "_" stage.2 = 0%nat) setup_stages.
Proof.
  intros H1 H2 Ht1 Ht2. rewrite (unique_id_text _ _ _ H1), (unique_id_text _ _ _ H2).
  intros [Hty Hs]%tag_split; [|done..]. split.
  - unfold entity_key. by rewrite H1, H2, Hty, Hs.
  - repeat constructor.
Qed.

Lemma unique_id_injective_witness :
  entity_key zone_one = entity_key (store zone_one (VStr "alarm", ∅)) ∧
  Forall (λ stage, Str.count_char "_" stage.2 = 0%nat) setup_stages.
Proof.
  apply (unique_id_injective no_repr zone_one (store zone_one (VStr "alarm", ∅))
           "1" "1"); reflexivity.
Defined.

(** ** The catalog *)

Lemma fetched_app l1 l2 : fetched (l1 ++ l2) = fetched l1 ++ fetched l2.
Proof. unfold fetched. apply omap_app. Qed.

Lemma fetch_free_fetched {A} (m : M A) : fetch_free m → fetched (events m) = [].
Proof.
  unfold fetch_free. generalize (events m). intros l Hl.
  induction l as [|ev l IH]; [done|].
  assert (fetched l = []) as Hrest.
  { apply IH. intros c Hc. apply (Hl c). apply elem_of_cons. by right. }
  destruct ev as [c| |]; cbn; [|done..].
  destruct (Hl c). apply elem_of_cons. by left.
Qed.

Lemma record_key_init py_repr d ty e log :
  __init__ py_repr d ty = (Ok e, log) → entity_key e = record_key ty d.
Proof.
  intros Hinit. destruct (init_identity _ _ _ _ _ Hinit) as [Hget Hty].
  unfold entity_key, record_key, get. unfold getitem in Hget.
  destruct (d !! "ID"); [|discriminate]. injection Hget as ->. by rewrite Hty.
Qed.

Lemma append_entities_ok py_repr sensors ty :
  ∀ es es' log,
    append_entities py_repr sensors ty es = (Ok es', log) →
    Forall (λ d, init_ready ty d = true) sensors ∧
    ∃ new, es' = es ++ new ∧ entity_key <$> new = record_key ty <$> sensors.
Proof.
  induction sensors as [|d rest IH]; intros es es' log.
  - intros [= <- _]. split; [done|]. exists []. by rewrite app_nil_r.
  - cbn [append_entities].
    destruct (__init__ py_repr d ty) as [[e|] l] eqn:Hinit; [|discriminate].
    mstep. destruct (append_entities py_repr rest ty (es ++ [e])) as [r l'] eqn:Hrest.
    intros [= -> <-]. destruct (IH _ _ _ Hrest) as [Hall (new & -> & Hkeys)].
    split.
    + constructor; [|done]. apply (init_completes_iff py_repr).
      rewrite Hinit. by eexists _, _.
    + exists (e :: new). split; [by rewrite <- app_assoc|].
      cbn [fmap list_fmap]. f_equal; [|done]. by apply (record_key_init py_repr _ _ _ l).
Qed.

Lemma append_entities_completes py_repr sensors ty :
  ∀ es, Forall (λ d, init_ready ty d = true) sensors →
        completes (append_entities py_repr sensors ty es).
Proof.
  induction sensors as [|d rest IH]; intros es Hall; [apply completes_ret|].
  apply Forall_cons in Hall as [Hd Hrest]. cbn [append_entities].
  apply completes_bind; [by apply init_completes_iff | intros e; by apply IH].
Qed.

Lemma run_stages_ok py_repr ws stages :
  ∀ es es' log,
    run_stages py_repr ws stages es = (Ok es', log) →
    Forall (stage_ready ws) stages ∧
    entity_key <$> es' = (entity_key <$> es) ++ concat (stage_keys ws <$> stages) ∧
    fetched log = stages.*1.*1.
Proof.
  induction stages as [|[[c fmt] ty] rest IH]; intros es es' log.
  - intros [= <- <-]. by rewrite app_nil_r.
  - rewrite run_stages_cons.
    destruct (ws c) as [sensors|e0] eqn:Hc; [|discriminate].
    pose proof (append_entities_fetch_free py_repr sensors ty es) as Hfree.
    apply fetch_free_fetched in Hfree.
    destruct (append_entities py_repr sensors ty es) as [[es1|e1] l] eqn:Happ;
      [|discriminate].
    destruct (append_entities_ok _ _ _ _ _ _ Happ) as [Hall (new & -> & Hkeys)].
    destruct (run_stages py_repr ws rest (es ++ new)) as [r l'] eqn:Hrest.
    intros [= -> <-]. destruct (IH _ _ _ Hrest) as (Hready & Hk & Hf).
    split; [|split].
    + constructor; [|done]. exists sensors. split; [exact Hc | exact Hall].
    + cbn [fmap list_fmap concat].
      change (stage_keys ws (c, fmt, ty))
        with (match ws c with
              | Ok sensors0 => record_key ty <$> sensors0
              | Raise _ => []
              end).
      by rewrite Hc, Hk, fmap_app, Hkeys, <- app_assoc.
    + cbn [fmap list_fmap fst]. change (fetched (Fetch c :: LogDebug fmt sensors :: l ++ l'))
        with (c :: fetched (l ++ l')).
      rewrite fetched_app. unfold events in Hfree. cbn [snd] in Hfree.
      by rewrite Hfree, Hf.
Qed.

Lemma run_stages_completes py_repr ws stages :
  ∀ es, Forall (stage_ready ws) stages →
        completes (run_stages py_repr ws stages es).
Proof.
  induction stages as [|[[c fmt] ty] rest IH]; intros es Hall; [apply completes_ret|].
  apply Forall_cons in Hall as [(sensors & Hc & Hs) Hrest]. cbn [fst snd] in *.
  rewrite run_stages_cons, Hc.
  destruct (append_entities_completes py_repr sensors ty es Hs) as (es1 & l & ->).
  destruct (IH es1 Hrest) as (es2 & l' & ->). by eexists _, _.
Qed.

Lemma run_stages_prefix py_repr ws stages :
  ∀ es, ∃ n, fetched (events (run_stages py_repr ws stages es)) = take n stages.*1.*1.
Proof.
  induction stages as [|[[c fmt] ty] rest IH]; intros es; [by exists 0%nat|].
  rewrite run_stages_cons. destruct (ws c) as [sensors|e0]; [|by exists 1%nat].
  pose proof (append_entities_fetch_free py_repr sensors ty es) as Hfree.
  apply fetch_free_fetched in Hfree. unfold events in *.
  destruct (append_entities py_repr sensors ty es) as [[es1|e1] l]; cbn [snd] in *.
  - destruct (IH es1) as [n Hn].
    destruct (run_stages py_repr ws rest es1) as [r l']. cbn [snd] in *.
    exists (S n).
    change (fetched (Fetch c :: LogDebug fmt sensors :: l ++ l'))
      with (c :: fetched (l ++ l')).
    by rewrite fetched_app, Hfree, Hn.
  - exists 1%nat.
    change (fetched (Fetch c :: LogDebug fmt sensors :: l)) with (c :: fetched l).
    by rewrite Hfree.
Qed.

(** X11. The setup ends normally exactly when each of the five fetches
    answers and every record answered carries an [ID] and, for the partitions
    fetch, a well-formed [STAT]; a single record that the constructor rejects
    fails the whole setup. *)
Theorem setup_completes_iff (py_repr : value → string) (ws_manager : WsManager) :
  completes (async_setup_entry py_repr ws_manager) ↔
    Forall (stage_ready ws_manager) setup_stages.
Proof.
  rewrite setup_as_stages. split.
  - intros (es & log & Hrun). by apply run_stages_ok in Hrun as [H _].
  - apply run_stages_completes.
Qed.

(** X12. When the setup ends normally the list it hands to the platform
    holds one entity per record answered, in the order domus, powerlines,
    partitions, zones, system and in the order of each answer, each with the
    category tag of its fetch and the [ID] of its record; and the five fetches
    were awaited once each, in that order. *)
Theorem setup_catalog (py_repr : value → string) (ws_manager : WsManager)
    (entities : list KseniaSensorEntity) (log : list event) :
  async_setup_entry py_repr ws_manager = (Ok entities, log) →
  entity_key <$> entities = concat (stage_keys ws_manager <$> setup_stages) ∧
  fetched log = setup_fetches.
Proof.
  rewrite setup_as_stages. intros Hrun.
  by apply run_stages_ok in Hrun as (_ & Hk & Hf).
Qed.

Lemma setup_catalog_witness :
  entity_key <$> five_entities = concat (stage_keys one_record <$> setup_stages) ∧
  fetched five_events = setup_fetches.
Proof.
  apply (setup_catalog no_repr one_record five_entities five_events).
  vm_compute. reflexivity.
Defined.

(** X13. However the setup ends, the fetches it has awaited are an initial
    part of the fixed sequence domus, power lines, partitions, zones, system:
    it never fetches out of that order, never repeats a fetch and never
    fetches anything else. *)
Theorem setup_fetch_order (py_repr : value → string) (ws_manager : WsManager) :
  ∃ n, fetched (events (async_setup_entry py_repr ws_manager)) =
         take n setup_fetches.
Proof. rewrite setup_as_stages. apply run_stages_prefix. Qed.

(** ** Errors of the category branches *)

Lemma sum_enc_log ph vals :
  ∀ total, ∃ t log,
    sum_enc ph total vals = (Ok t, log) ∧
    (length log + length (omap parsed_enc vals) = length vals)%nat ∧
    Forall (λ ev, ∃ e, ev = LogError (partitions_msg ph) e) log.
Proof.
  induction vals as [|record rest IH]; intros total.
  - exists total, []. by repeat split.
  - cbn [sum_enc omap list_omap]. rewrite add_enc_spec.
    assert (parsed_enc record =
            match py_get record "ENC" (VInt 0) ≫= py_float with
            | Ok x => Some x
            | Raise _ => None
            end) as -> by done.
    destruct (py_get record "ENC" (VInt 0) ≫= py_float) as [x|e].
    + destruct (IH (total + x)%float) as (t & log & Hs & Hlen & Hall).
      exists t, log. mstep. rewrite Hs.
      split; [done|]. split; [cbn [length]; lia | done].
    + destruct (IH total) as (t & log & Hs & Hlen & Hall).
      exists t, (LogError (partitions_msg ph) e :: log). mstep. rewrite Hs.
      split; [done|]. split; [cbn [length]; lia|].
      constructor; [by exists e | done].
Qed.

Lemma total_consumption_log ph d :
  stat_well_formed d = true →
  ∃ t log,
    total_consumption ph d = (Ok t, log) ∧
    (length log + length (omap parsed_enc (latest_vals d))
     = length (latest_vals d))%nat ∧
    Forall (λ ev, ∃ e, ev = LogError (partitions_msg ph) e) log.
Proof.
  unfold total_consumption, stat_well_formed, latest_vals.
  destruct (get d "STAT" (VList [])) as [| b | z | f | s | l | m];
    destruct (truthy _) eqn:Htr; cbn [negb orb]; try discriminate;
    try (intros _; exists 0%float, []; by repeat split).
  - cbn [py_last].
    destruct (last l) as [[| | | | | |latest]|]; try discriminate.
    mstep. cbn [py_get]. generalize (get latest "VAL" (VList [])).
    intros vals Hit. mstep.
    destruct vals; try discriminate Hit; cbn [py_iter];
      match goal with
      | |- context [sum_enc ph ?t ?vs] =>
          destruct (sum_enc_log ph vs t) as (t' & log & Hlog & Hlen & Hall)
      end; exists t', log; by rewrite Hlog.
  - intros _. exists 0%float, []. cbn [truthy] in Htr.
    apply negb_false_iff, bool_decide_eq_true in Htr.
    destruct l; [|done]. by repeat split.
Qed.

(** X14. On a partitions record with a well-formed [STAT], the branch logs
    one error message for each entry of the newest [VAL] whose [ENC] does not
    convert, entries that are no mappings included, and nothing else; the
    entries that convert and the messages together account for every entry. *)
Theorem partitions_errors (ph : phase) (sensor_data : dict) :
  stat_well_formed sensor_data = true →
  let log := events (reduce ph "partitions" sensor_data) in
  (length log + length (omap parsed_enc (latest_vals sensor_data))
   = length (latest_vals sensor_data))%nat ∧
  Forall (λ ev, ∃ e, ev = LogError (partitions_msg ph) e) log.
Proof.
  intros Hwf. rewrite reduce_partitions_eq. unfold reduce_partitions.
  destruct (total_consumption_log ph sensor_data Hwf) as (t & log & -> & Hlen & Hall).
  mstep. unfold events. cbn [snd]. by rewrite app_nil_r.
Qed.

Lemma partitions_errors_witness :
  let log := events (reduce Refresh "partitions" mixed_enc_record) in
  (length log + length (omap parsed_enc (latest_vals mixed_enc_record))
   = length (latest_vals mixed_enc_record))%nat ∧
  Forall (λ ev, ∃ e, ev = LogError (partitions_msg Refresh) e) log.
Proof. apply (partitions_errors Refresh mixed_enc_record). reflexivity. Defined.

Example mixed_enc_events :
  events (reduce Refresh "partitions" mixed_enc_record) =
    [LogError "Error converting ENC in partitions sensor update: %s" ValueError;
     LogError "Error converting ENC in partitions sensor update: %s" AttributeError] ∧
  attribute (reduce Refresh "partitions" mixed_enc_record) "total_consumption"
    = Some (VFloat 1.5).
Proof. split; vm_compute; reflexivity. Qed.

(** X15. A [PCONS] that is truthy but no text, such as a JSON number, is not
    converted: the check raises [AttributeError], which is logged, the
    consumption is null and the state is the [STATUS] field. The same holds
    for [PPROD] and the production. *)
Theorem powerlines_non_text (ph : phase) (sensor_data : dict) (v : value) :
  truthy v = true → (∀ s, v ≠ VStr s) →
  (sensor_data !! "PCONS" = Some v →
   attribute (reduce ph "powerlines" sensor_data) "Consumo" = Some VNone ∧
   state_of (reduce ph "powerlines" sensor_data)
     = Some (get sensor_data "STATUS" (VStr "unknown")) ∧
   LogError "Error converting PCONS: %s" AttributeError
     ∈ events (reduce ph "powerlines" sensor_data)) ∧
  (sensor_data !! "PPROD" = Some v →
   attribute (reduce ph "powerlines" sensor_data) "Produzione" = Some VNone ∧
   LogError "Error converting PPROD: %s" AttributeError
     ∈ events (reduce ph "powerlines" sensor_data)).
Proof.
  intros Htr Hv.
  assert (parse_power v = Raise AttributeError) as Hp.
  { unfold parse_power. rewrite Htr. destruct v; try done. by destruct (Hv s). }
  rewrite reduce_powerlines_eq. unfold reduce_powerlines. split; intros Hd.
  - assert (get sensor_data "PCONS" VNone = v) as Hget by (unfold get; by rewrite Hd).
    rewrite (power_field_raise sensor_data "PCONS" _ AttributeError)
      by (by rewrite Hget).
    destruct (power_field_spec sensor_data "PPROD" "Error converting PPROD: %s")
      as [l ->].
    mstep. unfold attribute, state_of, events. cbn [snd].
    split; [by simplify_map_eq|]. split; [done|]. apply elem_of_cons. by left.
  - assert (get sensor_data "PPROD" VNone = v) as Hget by (unfold get; by rewrite Hd).
    rewrite (power_field_raise sensor_data "PPROD" _ AttributeError)
      by (by rewrite Hget).
    destruct (power_field_spec sensor_data "PCONS" "Error converting PCONS: %s")
      as [l ->].
    mstep. unfold attribute, events. cbn [snd].
    split; [by simplify_map_eq|].
    apply elem_of_app. right. apply elem_of_cons. by left.
Qed.

Lemma powerlines_non_text_witness :
  (numeric_pcons_record !! "PCONS" = Some (VFloat 12.5) →
   attribute (reduce Construct "powerlines" numeric_pcons_record) "Consumo"
     = Some VNone ∧
   state_of (reduce Construct "powerlines" numeric_pcons_record)
     = Some (get numeric_pcons_record "STATUS" (VStr "unknown")) ∧
   LogError "Error converting PCONS: %s" AttributeError
     ∈ events (reduce Construct "powerlines" numeric_pcons_record)) ∧
  (numeric_pcons_record !! "PPROD" = Some (VFloat 12.5) →
   attribute (reduce Construct "powerlines" numeric_pcons_record) "Produzione"
     = Some VNone ∧
   LogError "Error converting PPROD: %s" AttributeError
     ∈ events (reduce Construct "powerlines" numeric_pcons_record)).
Proof.
  apply (powerlines_non_text Construct numeric_pcons_record (VFloat 12.5)).
  - reflexivity.
  - intros s. discriminate.
Defined.

(** X16. A [TEMP] field that is present but is no mapping, null included,
    makes the system branch log one [AttributeError] and null both
    temperatures; the state is still the [ARM] field. *)
Theorem system_temp_not_a_mapping (ph : phase) (sensor_data : dict) (v : value) :
  sensor_data !! "TEMP" = Some v → (∀ t, v ≠ VDict t) →
  reduce ph "system" sensor_data =
    (Ok (get sensor_data "ARM" (VStr "unknown"),
         <["temp_in" := VNone]> (<["temp_out" := VNone]> ∅)),
     [LogError "Error converting temperature: %s" AttributeError]).
Proof.
  intros Hd Hv. rewrite reduce_system_eq. unfold reduce_system.
  assert (get sensor_data "TEMP" (VDict ∅) = v) as -> by (unfold get; by rewrite Hd).
  assert (parse_temp v "IN" = Raise AttributeError) as ->; [|done].
  unfold parse_temp. destruct v; try done. by destruct (Hv d).
Qed.

Lemma system_temp_not_a_mapping_witness :
  reduce Construct "system" null_temp_record =
    (Ok (get null_temp_record "ARM" (VStr "unknown"),
         <["temp_in" := VNone]> (<["temp_out" := VNone]> ∅)),
     [LogError "Error converting temperature: %s" AttributeError]).
Proof.
  apply (system_temp_not_a_mapping Construct null_temp_record VNone).
  - reflexivity.
  - intros t. discriminate.
Defined.

(** ** The domus branch *)

Lemma parse_T_nullable d v : parse_T d = Ok v → nullable_float v.
Proof.
  unfold parse_T. destruct (truthy _); [|intros [= <-]; by left].
  destruct (py_remove _ _ _) as [s|]; [|discriminate].
  cbn [mbind outcome_bind]. destruct (PyFloat.of_str s) as [f|]; [|discriminate].
  intros [= <-]. right. by exists f.
Qed.

Lemma parse_H_nullable d v : parse_H d = Ok v → nullable_float v.
Proof.
  unfold parse_H. destruct (truthy _); [|intros [= <-]; by left].
  destruct (py_float _) as [f|]; [|discriminate].
  intros [= <-]. right. by exists f.
Qed.

Lemma value_or_null_nullable o :
  (∀ v, o = Ok v → nullable_float v) → nullable_float (value_or_null o).
Proof. destruct o as [v|e]; intros H; [by apply H | by left]. Qed.

(** X17. For every domus record the state is the temperature when [T]
    converts and the raw [STA] field, ["unknown"] when absent, otherwise; the
    attributes are the record with [temperature] and [humidity] overlaid, every
    other field kept. The two fields are converted independently, each null
    when it is absent, empty or fails, with at most two messages in all: a
    text [T] loses every [+] before the conversion and a text [H] is converted
    as it is; a truthy [T] that is a JSON number is nulled, an [H] that is a
    non-zero JSON float is kept. *)
Theorem domus_reduction (ph : phase) (sensor_data : dict) :
  let temperature := value_or_null (parse_T sensor_data) in
  let humidity := value_or_null (parse_H sensor_data) in
  (∃ log,
     reduce ph "domus" sensor_data =
       (Ok (match temperature with
            | VNone => get sensor_data "STA" (VStr "unknown")
            | _ => temperature
            end,
            <["humidity" := humidity]>
              (<["temperature" := temperature]> sensor_data)), log) ∧
     (length log ≤ 2)%nat) ∧
  nullable_float temperature ∧ nullable_float humidity ∧
  (∀ k, k ≠ "temperature" → k ≠ "humidity" →
        attribute (reduce ph "domus" sensor_data) k = sensor_data !! k) ∧
  (∀ s, sensor_data !! "T" = Some (VStr s) → s ≠ EmptyString →
        temperature =
          value_or_null (VFloat <$> PyFloat.of_str (Str.remove "+" None s))) ∧
  (∀ s, sensor_data !! "H" = Some (VStr s) → s ≠ EmptyString →
        humidity = value_or_null (VFloat <$> PyFloat.of_str s)) ∧
  (∀ v, sensor_data !! "T" = Some v → truthy v = true → (∀ s, v ≠ VStr s) →
        temperature = VNone) ∧
  (∀ f, sensor_data !! "H" = Some (VFloat f) → truthy (VFloat f) = true →
        humidity = VFloat f).
Proof.
  intros temperature humidity.
  assert (∃ log,
     reduce ph "domus" sensor_data =
       (Ok (match temperature with
            | VNone => get sensor_data "STA" (VStr "unknown")
            | _ => temperature
            end,
            <["humidity" := humidity]>
              (<["temperature" := temperature]> sensor_data)), log) ∧
     (length log ≤ 2)%nat) as Hred.
  { subst temperature humidity. rewrite reduce_domus_eq. unfold reduce_domus.
    destruct (parse_T sensor_data), (parse_H sensor_data); mstep;
      eexists; (split; [reflexivity | cbn [length]; lia]). }
  split; [exact Hred|].
  split; [apply value_or_null_nullable, parse_T_nullable|].
  split; [apply value_or_null_nullable, parse_H_nullable|].
  split.
  { intros k Hk1 Hk2. destruct Hred as (log & -> & _). unfold attribute.
    by rewrite !lookup_insert_ne. }
  subst temperature humidity. unfold parse_T, parse_H, get.
  split; [|split; [|split]].
  - intros s -> Hs. cbn [default from_option id truthy py_remove mbind outcome_bind].
    by rewrite bool_decide_false.
  - intros s -> Hs. cbn [default from_option id truthy py_float].
    by rewrite bool_decide_false.
  - intros v -> Htr Hv. cbn [default from_option id]. rewrite Htr.
    destruct v; try done. by destruct (Hv s).
  - intros f -> Htr. cbn [default from_option id]. by rewrite Htr.
Qed.

Example domus_warm :
  reduce Construct "domus" warm_record =
    (Ok (VFloat 19.5,
         <["humidity" := VFloat 45]> (<["temperature" := VFloat 19.5]> warm_record)),
     []).
Proof. vm_compute. reflexivity. Qed.

(** ** Accepted texts and the conversion *)

Lemma ascii_numeric_cases c :
  ascii_numeric c = true →
  c ∈ ["0"; "1"; "2"; "3"; "4"; "5"; "6"; "7"; "8"; "9"; "."]%char.
Proof.
  destruct c as [[] [] [] [] [] [] [] []]; intros H; try discriminate H;
    repeat (apply elem_of_cons; (by left) || right).
Qed.

Ltac numeric_char c H :=
  apply ascii_numeric_cases in H;
  repeat (apply elem_of_cons in H as [->|H]); [..|by apply elem_of_nil in H].

Lemma all_chars_and p q s :
  Str.all_chars p s = true → Str.all_chars q s = true →
  Str.all_chars (λ c, p c && q c) s = true.
Proof.
  induction s as [|c s IH]; [done|]. cbn [Str.all_chars].
  intros [Hp Hps]%andb_true_iff [Hq Hqs]%andb_true_iff.
  by rewrite Hp, Hq, IH.
Qed.

Lemma all_chars_impl (p q : ascii → bool) s :
  (∀ c, p c = true → q c = true) →
  Str.all_chars p s = true → Str.all_chars q s = true.
Proof.
  intros Hpq. induction s as [|c s IH]; [done|]. cbn [Str.all_chars].
  intros [Hp Hps]%andb_true_iff. by rewrite (Hpq c Hp), IH.
Qed.

Lemma digit_and_numeric c :
  Str.char_isdigit c && ascii_numeric c = true → Str.is_decimal c = true.
Proof.
  intros [Hd Hn]%andb_true_iff. numeric_char c Hn; try reflexivity.
  discriminate Hd.
Qed.

Lemma decimal_is_numeric c : Str.is_decimal c = true → ascii_numeric c = true.
Proof. unfold ascii_numeric. by intros ->. Qed.

Lemma map_to_ascii s :
  Str.all_chars ascii_numeric s = true → Str.map_chars PyFloat.to_ascii s = s.
Proof.
  induction s as [|c s IH]; [done|]. cbn [Str.all_chars Str.map_chars].
  intros [Hc Hs]%andb_true_iff. rewrite (IH Hs). f_equal.
  numeric_char c Hc; reflexivity.
Qed.

Lemma drop_underscores_numeric s :
  ∀ prev, prev ≠ "_"%char → Str.all_chars ascii_numeric s = true →
          PyFloat.drop_underscores prev s = Some s.
Proof.
  induction s as [|c s IH]; intros prev Hprev.
  - intros _. cbn [PyFloat.drop_underscores]. by rewrite bool_decide_false.
  - cbn [Str.all_chars PyFloat.drop_underscores]. intros [Hc Hs]%andb_true_iff.
    assert (c ≠ "_"%char) as Hne by (intros ->; discriminate Hc).
    rewrite (bool_decide_false (c = "_"%char)), (bool_decide_false (prev = "_"%char))
      by done.
    cbn [andb]. by rewrite (IH c Hne Hs).
Qed.

Lemma numeric_not_blank c : ascii_numeric c = true → PyFloat.is_blank c = false.
Proof. intros Hc. numeric_char c Hc; reflexivity. Qed.

Lemma lstrip_numeric s :
  Str.all_chars ascii_numeric s = true → PyFloat.lstrip s = s.
Proof.
  destruct s as [|c s]; [done|]. cbn [Str.all_chars PyFloat.lstrip].
  intros [Hc _]%andb_true_iff. by rewrite (numeric_not_blank c Hc).
Qed.

Lemma rstrip_numeric s :
  Str.all_chars ascii_numeric s = true → PyFloat.rstrip s = s.
Proof.
  induction s as [|c s IH]; [done|]. cbn [Str.all_chars PyFloat.rstrip].
  intros [Hc Hs]%andb_true_iff. rewrite (IH Hs), (numeric_not_blank c Hc).
  by destruct s.
Qed.

Lemma sign_numeric c s :
  ascii_numeric c = true → PyFloat.sign (String c s) = (false, String c s).
Proof. intros Hc. numeric_char c Hc; reflexivity. Qed.

Lemma special_numeric neg c s :
  ascii_numeric c = true → PyFloat.special neg (String c s) = None.
Proof.
  intros Hc. unfold PyFloat.special. cbn [Str.lower Str.map_chars].
  numeric_char c Hc; by rewrite !bool_decide_false by discriminate.
Qed.

Lemma digits_decimal s :
  ∀ m n, Str.all_chars Str.is_decimal s = true →
         ∃ m', PyFloat.digits s m n = (m', n + Z.of_nat (String.length s), EmptyString).
Proof.
  induction s as [|c s IH]; intros m n.
  - intros _. exists m. cbn. by rewrite Z.add_0_r.
  - cbn [Str.all_chars PyFloat.digits String.length]. intros [Hc Hs]%andb_true_iff.
    rewrite Hc. destruct (IH (10 * m + (Str.ord c - 48)) (n + 1) Hs) as [m' ->].
    exists m'. do 2 f_equal. lia.
Qed.

Lemma digits_stop a b :
  ∀ m n, Str.all_chars Str.is_decimal a = true →
         ∃ m', PyFloat.digits (a +:+ String "." b) m n
               = (m', n + Z.of_nat (String.length a), String "." b).
Proof.
  induction a as [|c a IH]; intros m n; rewrite ?append_nil, ?append_cons.
  - intros _. exists m. cbn. by rewrite Z.add_0_r.
  - cbn [Str.all_chars PyFloat.digits String.length]. intros [Hc Hs]%andb_true_iff.
    rewrite Hc. destruct (IH (10 * m + (Str.ord c - 48)) (n + 1) Hs) as [m' ->].
    exists m'. do 2 f_equal. lia.
Qed.

Lemma length_app_pos a b :
  a +:+ b ≠ EmptyString →
  ((0 + Z.of_nat (String.length a)) + (0 + Z.of_nat (String.length b)) =? 0) = false.
Proof.
  intros Hab. apply Z.eqb_neq. destruct a as [|c a]; [|cbn [String.length]; lia].
  destruct b as [|c b]; [by destruct Hab | cbn [String.length]; lia].
Qed.

Lemma number_accepted s :
  power_accepts s = true → Str.all_chars ascii_numeric s = true →
  ∃ f, PyFloat.number false s = Some f.
Proof.
  intros Hacc Hnum. destruct (accepts_shape s Hacc) as (a & b & Hs & Hne & Hdig).
  assert (Str.all_chars Str.is_decimal a = true ∧
          Str.all_chars Str.is_decimal b = true) as [Ha Hb].
  { apply andb_true_iff. rewrite <- all_chars_app.
    apply (all_chars_impl (λ c, Str.char_isdigit c && ascii_numeric c));
      [apply digit_and_numeric|].
    apply all_chars_and; [done|]. destruct Hs as [-> | ->]; [done|].
    rewrite all_chars_app in Hnum. apply andb_true_iff in Hnum as [Hna Hnb].
    cbn [Str.all_chars] in Hnb. apply andb_true_iff in Hnb as [_ Hnb].
    by rewrite all_chars_app, Hna, Hnb. }
  unfold PyFloat.number. destruct Hs as [-> | ->].
  - assert (Str.all_chars Str.is_decimal (a +:+ b) = true) as Hab
      by (by rewrite all_chars_app, Ha, Hb).
    destruct (digits_decimal (a +:+ b) 0 0 Hab) as [m ->].
    assert ((0 + Z.of_nat (String.length (a +:+ b)) + 0 =? 0) = false) as ->.
    { apply Z.eqb_neq. destruct (a +:+ b); [done | cbn [String.length]; lia]. }
    cbn [PyFloat.exponent mbind option_bind]. by eexists.
  - destruct (digits_stop a b 0 0 Ha) as [m1 ->].
    destruct (digits_decimal b m1 0 Hb) as [m2 ->].
    rewrite (length_app_pos a b Hne).
    cbn [PyFloat.exponent mbind option_bind]. by eexists.
Qed.

Lemma of_str_accepted s :
  power_accepts s = true → Str.all_chars ascii_numeric s = true →
  ∃ f, PyFloat.of_str s = Ok f.
Proof.
  intros Hacc Hnum. destruct (number_accepted s Hacc Hnum) as [f Hf].
  unfold PyFloat.of_str.
  rewrite (map_to_ascii s Hnum), (drop_underscores_numeric s "000"%char) by done.
  rewrite (lstrip_numeric s Hnum), (rstrip_numeric s Hnum).
  destruct s as [|c s]; [discriminate Hacc|].
  cbn [Str.all_chars] in Hnum. apply andb_true_iff in Hnum as [Hc _].
  rewrite (sign_numeric c s Hc), (special_numeric false c s Hc), Hf.
  by eexists.
Qed.

(** X18. A text made of ASCII digits and decimal points that passes the
    acceptance check of the powerlines branch always converts: the field gets
    a float and nothing is logged. On such texts the handlers of the [PCONS]
    and [PPROD] conversions are never entered. *)
Theorem accepted_ascii_text_converts (s : string) :
  power_accepts s = true →
  Str.all_chars ascii_numeric s = true →
  ∃ f, PyFloat.of_str s = Ok f ∧
       parse_power (VStr s) = Ok (VFloat f) ∧
       ∀ (d : dict) key msg, d !! key = Some (VStr s) →
                             power_field d key msg = (Ok (VFloat f), []).
Proof.
  intros Hacc Hnum. destruct (of_str_accepted s Hacc Hnum) as [f Hf].
  exists f. split; [done|].
  assert (parse_power (VStr s) = Ok (VFloat f)) as Hp
    by (by rewrite parse_power_text, Hacc, Hf).
  split; [done|]. intros d key msg Hd. unfold power_field, get.
  by rewrite Hd; cbn [default from_option id]; rewrite Hp.
Qed.

Lemma accepted_ascii_text_converts_witness :
  ∃ f, PyFloat.of_str "12.5" = Ok f ∧
       parse_power (VStr "12.5") = Ok (VFloat f) ∧
       ∀ (d : dict) key msg, d !! key = Some (VStr "12.5") →
                             power_field d key msg = (Ok (VFloat f), []).
Proof. apply (accepted_ascii_text_converts "12.5"); reflexivity. Defined.


(** ** The first matching record *)

(** C10, as amended. When the snapshot holds a record whose [ID] equals the
    entity's, every record before the first such one carrying another [ID],
    the refresh reduces that first record and no other. When the reduction
    ends normally the state and the attributes of the entity are afterwards
    exactly its result, identifier, category and name being kept; when it
    raises, the exception leaves the refresh and the entity stays as it was.
    Whatever follows the record in the snapshot, further records with the same
    [ID] included, plays no part. *)
Theorem refresh_takes_first_match (ws_manager : WsManager)
    (self : KseniaSensorEntity) (pre post : list dict) (sensor : dict) (id : value) :
  ws_manager (fetch_of (_sensor_type self)) = Ok (pre ++ sensor :: post) →
  (∀ d, d ∈ pre → ∃ i, d !! "ID" = Some i ∧ py_eq i (_id self) = false) →
  sensor !! "ID" = Some id →
  py_eq id (_id self) = true →
  let after := (async_update ws_manager self).1 in
  let ending := (async_update ws_manager self).2 in
  match reduce Refresh (_sensor_type self) sensor with
  | (Ok (st, attrs), log) =>
      state after = st ∧
      extra_state_attributes after = attrs ∧
      _id after = _id self ∧
      _sensor_type after = _sensor_type self ∧
      name after = name self ∧
      ending = (Ok tt, Fetch (fetch_of (_sensor_type self)) :: log)
  | (Raise e, log) =>
      after = self ∧
      ending = (Raise e, Fetch (fetch_of (_sensor_type self)) :: log)
  end.
Proof.
  intros Hfetch Hpre Hid Heq after ending. subst after ending.
  rewrite (async_update_first_match ws_manager self pre post sensor id
             Hfetch Hpre Hid Heq).
  by destruct (reduce Refresh (_sensor_type self) sensor) as [[[st attrs]|e] log].
Qed.

Lemma refresh_takes_first_match_witness :
  let after := (async_update twice_seven zone_seven).1 in
  let ending := (async_update twice_seven zone_seven).2 in
  match reduce Refresh (_sensor_type zone_seven) (zone_record "7" "A") with
  | (Ok (st, attrs), log) =>
      state after = st ∧
      extra_state_attributes after = attrs ∧
      _id after = _id zone_seven ∧
      _sensor_type after = _sensor_type zone_seven ∧
      name after = name zone_seven ∧
      ending = (Ok tt, Fetch (fetch_of (_sensor_type zone_seven)) :: log)
  | (Raise e, log) =>
      after = zone_seven ∧
      ending = (Raise e, Fetch (fetch_of (_sensor_type zone_seven)) :: log)
  end.
Proof.
  apply (refresh_takes_first_match twice_seven zone_seven
           [zone_record "3" "T"] [zone_record "7" "B"] (zone_record "7" "A")
           (VStr "7")).
  - reflexivity.
  - intros d ->%list_elem_of_singleton. exists (VStr "3"). split; reflexivity.
  - reflexivity.
  - reflexivity.
Defined.

(** C10 as stated fails: with the identifier twice in the snapshot and the
    first of the two records carrying a null [VAL], the refresh of the
    partitions entity raises [TypeError]; its state and attributes are derived
    neither from the first record nor from the second, they stay as they
    were. *)
Lemma first_match_may_raise :
  async_update broken_then_sound partition_seven =
    (partition_seven, (Raise TypeError, [Fetch (GetSensor "PARTITIONS")])) ∧
  state (async_update broken_then_sound partition_seven).1 = VStr "D".
Proof. split; vm_compute; reflexivity. Qed.
